(** * n8n webhook UI: response normalisation and resumable session

    A shallow embedding of the client logic of [src/App.tsx] (the dark
    variant of the six-step flow): the continuation address resolver
    [toProxied], the payload helpers [normalizeImages] and
    [coerceRootFromAny], the selection bookkeeping of the Results step and
    the handlers of the steps after the trigger ([submitUploadStyle],
    [submitCompose], [fetchReview], [sendBackToN8n], [fetchResults],
    [sendSelectedImagesBack], [sendImagesForFinals]).

    A handler reads the state cells of the render it was created in and
    writes through the setters; it is modelled as a computation over the
    cells that stops at every [await fetch(...)] and is resumed with the
    reply.

    JavaScript strings are sequences of UTF-16 code units and are modelled
    as lists of code units; JSON payloads are modelled by the type [Value]
    of the values [JSON.parse] can produce, together with [undefined].
    The facilities of the browser that the program calls but does not
    define ([JSON.parse], the [URL] constructor, the text of a [TypeError])
    are the fields of the class [Platform]. *)

From Stdlib Require Import NArith Ascii String.
From stdpp Require Import base option list sorting gmap pretty.

Set Warnings "-register-all".

Local Open Scope N_scope.
Local Open Scope nat_scope.
Local Open Scope list_scope.

(** ** Strings as code-unit sequences *)

Abbreviation jsstring := (list N).

(** A string literal of the source, for ASCII text. *)
Definition lit (s : string) : jsstring :=
  (fun a => N_of_ascii a) <$> list_ascii_of_string s.

Arguments lit : simpl never.

(** [WhiteSpace] and [LineTerminator] of ECMAScript: the characters removed
    by [String.prototype.trim] and matched by the regular expression class
    [\s]. *)
Definition is_ws (c : N) : bool :=
  ((9 <=? c) && (c <=? 13) || (c =? 32) || (c =? 160) || (c =? 5760)
   || (8192 <=? c) && (c <=? 8202) || (c =? 8232) || (c =? 8233)
   || (c =? 8239) || (c =? 8287) || (c =? 12288) || (c =? 65279))%N.

Fixpoint trimStart (s : jsstring) : jsstring :=
  match s with
  | c :: r => if is_ws c then trimStart r else s
  | [] => []
  end.

Definition trimEnd (s : jsstring) : jsstring := rev (trimStart (rev s)).

(** [s.trim()] *)
Definition trim (s : jsstring) : jsstring := trimEnd (trimStart s).

(** [s.startsWith(p)] *)
Fixpoint startsWith (s p : jsstring) : bool :=
  match p, s with
  | [], _ => true
  | a :: p', b :: s' => (a =? b)%N && startsWith s' p'
  | _ :: _, [] => false
  end.

(** [s.endsWith(p)] *)
Definition endsWith (s p : jsstring) : bool := startsWith (rev s) (rev p).

(** [s.toLowerCase()] on the Basic Latin block; code units outside it are
    left as they are.  The handlers only compare the result with ["done"]
    and ["error"], and no character outside Basic Latin lower-cases to one
    of the letters of these two words. *)
Definition lower (c : N) : N :=
  if ((65 <=? c) && (c <=? 90))%N then (c + 32)%N else c.

Definition toLowerCase (s : jsstring) : jsstring := lower <$> s.

(** Case-insensitive match of one pattern character, as the [i] flag of a
    non-unicode regular expression does it for an ASCII pattern. *)
Definition eq_ci (a b : N) : bool := (lower a =? lower b)%N.

Fixpoint startsWith_ci (s p : jsstring) : bool :=
  match p, s with
  | [], _ => true
  | a :: p', b :: s' => eq_ci a b && startsWith_ci s' p'
  | _ :: _, [] => false
  end.

(** [/p/i.test(s)] for a pattern [p] without metacharacters: [p] occurs
    somewhere in [s], letters compared without case. *)
Fixpoint includes_ci (s p : jsstring) : bool :=
  startsWith_ci s p ||
  match s with
  | _ :: r => includes_ci r p
  | [] => false
  end.

(** [s.replace(/^c/, '')] and [s.replace(/c$/, '')] for one character. *)
Definition strip_leading (c : N) (s : jsstring) : jsstring :=
  match s with
  | a :: r => if (a =? c)%N then r else s
  | [] => []
  end.

Definition strip_trailing (c : N) (s : jsstring) : jsstring :=
  rev (strip_leading c (rev s)).

(** [s.replace(/^\[|\]$/g, '')]: a leading opening bracket and a trailing
    closing bracket are removed. *)
Definition strip_brackets (s : jsstring) : jsstring :=
  strip_trailing 93 (strip_leading 91 s).

(** [s.replace(/^\"|\"$/g, '')] *)
Definition strip_quotes (s : jsstring) : jsstring :=
  strip_trailing 34 (strip_leading 34 s).

(** Number of white-space characters at the start of [s]. *)
Fixpoint ws_run (s : jsstring) : nat :=
  match s with
  | c :: r => if is_ws c then S (ws_run r) else 0
  | [] => 0
  end.

(** Length of the match of [/\s*,\s*/] anchored at the start of [s], when
    there is one.  The first [\s*] is greedy and a comma is not white
    space, so the match exists exactly when a comma follows the run of
    white space. *)
Definition sep_len (s : jsstring) : option nat :=
  match drop (ws_run s) s with
  | c :: r => if (c =? 44)%N then Some (ws_run s + 1 + ws_run r) else None
  | [] => None
  end.

(** [s.split(/\s*,\s*/)].  [cur] collects the piece being read (reversed);
    [skip] counts the characters of a separator still to be passed over. *)
Fixpoint split_go (skip : nat) (cur : jsstring) (s : jsstring) : list jsstring :=
  match s with
  | [] => [rev cur]
  | c :: r =>
      match skip with
      | S k => split_go k cur r
      | O =>
          match sep_len s with
          | Some (S k) => rev cur :: split_go k [] r
          | _ => split_go 0 (c :: cur) r
          end
      end
  end.

Definition split_commas (s : jsstring) : list jsstring := split_go 0 [] s.

(** [s.indexOf(c)] and [s.lastIndexOf(c)] for one character; [None] is the
    source's [-1]. *)
Fixpoint indexOf (c : N) (s : jsstring) : option nat :=
  match s with
  | [] => None
  | a :: r => if (a =? c)%N then Some 0 else S <$> indexOf c r
  end.

Definition lastIndexOf (c : N) (s : jsstring) : option nat :=
  (fun i => length s - 1 - i) <$> indexOf c (rev s).

(** [s.slice(i, j)] for [0 <= i] and [0 <= j]. *)
Definition slice (i j : nat) (s : jsstring) : jsstring := drop i (take j s).

(** A string neither begins nor ends with white space. *)
Definition no_outer_ws (s : jsstring) : bool :=
  match s with
  | c :: _ => negb (is_ws c)
  | [] => true
  end &&
  match rev s with
  | c :: _ => negb (is_ws c)
  | [] => true
  end.

(** A text of the source or of a response written with apostrophes in the
    place of its quotation marks. *)
Definition quoted (s : string) : jsstring :=
  (fun c => if (c =? 39)%N then 34%N else c) <$> lit s.

(** Decimal rendering of an array index or an HTTP status. *)
Definition dec (n : nat) : jsstring := lit (pretty n).

(** ** JSON values *)

(** The values a response can parse to, and [undefined].  A number is kept
    as its [ToString] rendering: the program never computes with numbers of
    a payload, it only tests them for truth and prints them. *)
Inductive Value : Type :=
| VUndefined
| VNull
| VBool (b : bool)
| VNum (rendering : jsstring)
| VStr (s : jsstring)
| VArr (elems : list Value)
| VObj (fields : list (jsstring * Value)).

(** [Boolean(v)], the test of [if (v)], [!v], [v || w] and [v && w]. *)
Definition truthy (v : Value) : bool :=
  match v with
  | VUndefined | VNull => false
  | VBool b => b
  | VNum r => negb (bool_decide (r = lit "0")) && negb (bool_decide (r = lit "NaN"))
  | VStr s => negb (bool_decide (s = []))
  | VArr _ | VObj _ => true
  end.

(** [v || w] *)
Definition js_or (v w : Value) : Value := if truthy v then v else w.

(** [v ?? w] *)
Definition nullish_or (v w : Value) : Value :=
  match v with
  | VUndefined | VNull => w
  | _ => v
  end.

(** [Array.isArray(v)] *)
Definition isArray (v : Value) : bool :=
  match v with
  | VArr _ => true
  | _ => false
  end.

(** [String(v)] *)
Fixpoint ToString (v : Value) : jsstring :=
  match v with
  | VUndefined => lit "undefined"
  | VNull => lit "null"
  | VBool true => lit "true"
  | VBool false => lit "false"
  | VNum r => r
  | VStr s => s
  | VArr l =>
      (fix join (l : list Value) : jsstring :=
         let item (e : Value) : jsstring :=
           match e with
           | VUndefined | VNull => []
           | _ => ToString e
           end in
         match l with
         | [] => []
         | [e] => item e
         | e :: r => item e ++ lit "," ++ join r
         end) l
  | VObj _ => lit "[object Object]"
  end.

(** Own property [k] of an object built by [JSON.parse]: of two members
    with the same name the later one counts. *)
Fixpoint obj_get (fs : list (jsstring * Value)) (k : jsstring) : option Value :=
  match fs with
  | [] => None
  | (k', v) :: r =>
      match obj_get r k with
      | Some w => Some w
      | None => if decide (k' = k) then Some v else None
      end
  end.

(** [v.k] and [v?.k] where [v] is not nullish, for the property names the
    program reads ([resumeUrl], [images], [message], [status], [ok],
    [videos], [VIDEOS], [media], [urls], [DELIVERABLES]).  None of them is
    a property of a string, number, boolean or array. *)
Definition get (v : Value) (k : string) : Value :=
  match v with
  | VObj fs => default VUndefined (obj_get fs (lit k))
  | _ => VUndefined
  end.

(** ['k' in v] for an object or array [v] and the same property names. *)
Definition has_key (k : string) (v : Value) : bool :=
  match v with
  | VObj fs => bool_decide (is_Some (obj_get fs (lit k)))
  | _ => false
  end.

(** [typeof v === 'object' && v] as a test *)
Definition is_object (v : Value) : bool :=
  match v with
  | VArr _ | VObj _ => true
  | _ => false
  end.

(** [v[0]] for an array [v] *)
Definition first_elem (v : Value) : Value :=
  match v with
  | VArr (e :: _) => e
  | _ => VUndefined
  end.

(** ** The browser platform *)

(** The two components of a parsed absolute URL that the program reads. *)
Record URL := { pathname : jsstring; search : jsstring }.

Class Platform := {
  (** [JSON.parse(text)]; [None] when it throws a [SyntaxError] *)
  JSON_parse : jsstring -> option Value;
  (** [new URL(text)] without a base; [None] when it throws, which it does
      for every text that is not an absolute URL *)
  URL_parse : jsstring -> option URL;
  (** the [message] of the [TypeError] raised by calling [e.map] when
      [e] has no such method; [e] is the text of the expression *)
  not_a_function : string -> jsstring
}.

(** ** Helpers of the source *)

Definition api_prefix : jsstring := lit "/api".

(** [toProxied]: rewrite an engine address to a same-origin one. *)
Definition toProxied `{Platform} (urlOrPath : jsstring) : jsstring :=
  match URL_parse urlOrPath with
  | Some u => api_prefix ++ pathname u ++ search u
  | None =>
      if startsWith urlOrPath (lit "/api") then urlOrPath
      else api_prefix ++ (if startsWith urlOrPath (lit "/") then [] else lit "/") ++ urlOrPath
  end.

(** [xs.map((s) => String(s).trim()).filter(Boolean)] *)
Definition trimmed_strings (xs : list Value) : list jsstring :=
  filter (fun s => s ≠ []) ((fun v => trim (ToString v)) <$> xs).

(** [normalizeImages] *)
Definition normalizeImages `{Platform} (imagesField : Value) : list jsstring :=
  if negb (truthy imagesField) then []
  else
    match imagesField with
    | VArr xs => trimmed_strings xs
    | _ =>
        let asStr := trim (ToString imagesField) in
        let fallback :=
          filter (fun s => s ≠ [])
            ((fun s => trim (strip_quotes s)) <$> split_commas (strip_brackets asStr)) in
        if startsWith asStr (lit "[") && endsWith asStr (lit "]") then
          match JSON_parse asStr with
          | Some (VArr arr) => trimmed_strings arr
          | _ => fallback
          end
        else fallback
    end.

(** [coerceRootFromAny] *)
Definition coerceRootFromAny (data : Value) : Value :=
  match data with
  | VArr _ => nullish_or (first_elem data) (VObj [])
  | _ => nullish_or data (VObj [])
  end.

(** ** Session state *)

Inductive Tab := TabTrigger | TabUploadStyle | TabCompose | TabReview | TabResults | TabFinals.

Inductive Status := Idle | Pending | Done | Error.

#[global] Instance Tab_eq_dec : EqDecision Tab.
Proof. solve_decision. Defined.

#[global] Instance Status_eq_dec : EqDecision Status.
Proof. solve_decision. Defined.

(** A file picked by the operator; its content is opaque to the client. *)
Record File := { file_name : jsstring }.

(** The state cells of the [App] component, one field per [useState].
    [message] is declared a string in the source but is assigned the
    [message] member of a response without conversion, so it holds a
    [Value]. *)
Record Session := mkSession {
  activeTab : Tab;
  resumeUrl : jsstring;
  prompt : jsstring;
  filesDocs : list File;
  filesStyle : list File;
  isTriggering : bool;
  isUploadingStyle : bool;
  isComposing : bool;
  isSubmittingReview : bool;
  status : Status;
  images : list jsstring;
  message : Value;
  deliverables : list (gmap jsstring jsstring);
  selected : gmap jsstring bool;
  imgFeedback : gmap jsstring jsstring;
  sendingImages : bool;
  finalStatus : Status;
  finalMessage : jsstring;
  finalVideos : list jsstring
}.

Definition setActiveTab (v : Tab) (s : Session) : Session :=
  {| activeTab := v; resumeUrl := resumeUrl s; prompt := prompt s;
     filesDocs := filesDocs s; filesStyle := filesStyle s;
     isTriggering := isTriggering s; isUploadingStyle := isUploadingStyle s;
     isComposing := isComposing s;
     isSubmittingReview := isSubmittingReview s; status := status s;
     images := images s; message := message s;
     deliverables := deliverables s; selected := selected s;
     imgFeedback := imgFeedback s; sendingImages := sendingImages s;
     finalStatus := finalStatus s; finalMessage := finalMessage s;
     finalVideos := finalVideos s |}.

Definition setResumeUrl (v : jsstring) (s : Session) : Session :=
  {| activeTab := activeTab s; resumeUrl := v; prompt := prompt s;
     filesDocs := filesDocs s; filesStyle := filesStyle s;
     isTriggering := isTriggering s; isUploadingStyle := isUploadingStyle s;
     isComposing := isComposing s;
     isSubmittingReview := isSubmittingReview s; status := status s;
     images := images s; message := message s;
     deliverables := deliverables s; selected := selected s;
     imgFeedback := imgFeedback s; sendingImages := sendingImages s;
     finalStatus := finalStatus s; finalMessage := finalMessage s;
     finalVideos := finalVideos s |}.

Definition setIsUploadingStyle (v : bool) (s : Session) : Session :=
  {| activeTab := activeTab s; resumeUrl := resumeUrl s; prompt := prompt s;
     filesDocs := filesDocs s; filesStyle := filesStyle s;
     isTriggering := isTriggering s; isUploadingStyle := v;
     isComposing := isComposing s;
     isSubmittingReview := isSubmittingReview s; status := status s;
     images := images s; message := message s;
     deliverables := deliverables s; selected := selected s;
     imgFeedback := imgFeedback s; sendingImages := sendingImages s;
     finalStatus := finalStatus s; finalMessage := finalMessage s;
     finalVideos := finalVideos s |}.

Definition setIsComposing (v : bool) (s : Session) : Session :=
  {| activeTab := activeTab s; resumeUrl := resumeUrl s; prompt := prompt s;
     filesDocs := filesDocs s; filesStyle := filesStyle s;
     isTriggering := isTriggering s; isUploadingStyle := isUploadingStyle s;
     isComposing := v; isSubmittingReview := isSubmittingReview s;
     status := status s; images := images s; message := message s;
     deliverables := deliverables s; selected := selected s;
     imgFeedback := imgFeedback s; sendingImages := sendingImages s;
     finalStatus := finalStatus s; finalMessage := finalMessage s;
     finalVideos := finalVideos s |}.

Definition setIsSubmittingReview (v : bool) (s : Session) : Session :=
  {| activeTab := activeTab s; resumeUrl := resumeUrl s; prompt := prompt s;
     filesDocs := filesDocs s; filesStyle := filesStyle s;
     isTriggering := isTriggering s; isUploadingStyle := isUploadingStyle s;
     isComposing := isComposing s; isSubmittingReview := v;
     status := status s; images := images s; message := message s;
     deliverables := deliverables s; selected := selected s;
     imgFeedback := imgFeedback s; sendingImages := sendingImages s;
     finalStatus := finalStatus s; finalMessage := finalMessage s;
     finalVideos := finalVideos s |}.

Definition setStatus (v : Status) (s : Session) : Session :=
  {| activeTab := activeTab s; resumeUrl := resumeUrl s; prompt := prompt s;
     filesDocs := filesDocs s; filesStyle := filesStyle s;
     isTriggering := isTriggering s; isUploadingStyle := isUploadingStyle s;
     isComposing := isComposing s;
     isSubmittingReview := isSubmittingReview s; status := v;
     images := images s; message := message s;
     deliverables := deliverables s; selected := selected s;
     imgFeedback := imgFeedback s; sendingImages := sendingImages s;
     finalStatus := finalStatus s; finalMessage := finalMessage s;
     finalVideos := finalVideos s |}.

Definition setImages (v : list jsstring) (s : Session) : Session :=
  {| activeTab := activeTab s; resumeUrl := resumeUrl s; prompt := prompt s;
     filesDocs := filesDocs s; filesStyle := filesStyle s;
     isTriggering := isTriggering s; isUploadingStyle := isUploadingStyle s;
     isComposing := isComposing s;
     isSubmittingReview := isSubmittingReview s; status := status s;
     images := v; message := message s; deliverables := deliverables s;
     selected := selected s; imgFeedback := imgFeedback s;
     sendingImages := sendingImages s; finalStatus := finalStatus s;
     finalMessage := finalMessage s; finalVideos := finalVideos s |}.

Definition setMessage (v : Value) (s : Session) : Session :=
  {| activeTab := activeTab s; resumeUrl := resumeUrl s; prompt := prompt s;
     filesDocs := filesDocs s; filesStyle := filesStyle s;
     isTriggering := isTriggering s; isUploadingStyle := isUploadingStyle s;
     isComposing := isComposing s;
     isSubmittingReview := isSubmittingReview s; status := status s;
     images := images s; message := v; deliverables := deliverables s;
     selected := selected s; imgFeedback := imgFeedback s;
     sendingImages := sendingImages s; finalStatus := finalStatus s;
     finalMessage := finalMessage s; finalVideos := finalVideos s |}.

Definition setDeliverables (v : list (gmap jsstring jsstring)) (s : Session) : Session :=
  {| activeTab := activeTab s; resumeUrl := resumeUrl s; prompt := prompt s;
     filesDocs := filesDocs s; filesStyle := filesStyle s;
     isTriggering := isTriggering s; isUploadingStyle := isUploadingStyle s;
     isComposing := isComposing s;
     isSubmittingReview := isSubmittingReview s; status := status s;
     images := images s; message := message s; deliverables := v;
     selected := selected s; imgFeedback := imgFeedback s;
     sendingImages := sendingImages s; finalStatus := finalStatus s;
     finalMessage := finalMessage s; finalVideos := finalVideos s |}.

Definition setSelected (v : gmap jsstring bool) (s : Session) : Session :=
  {| activeTab := activeTab s; resumeUrl := resumeUrl s; prompt := prompt s;
     filesDocs := filesDocs s; filesStyle := filesStyle s;
     isTriggering := isTriggering s; isUploadingStyle := isUploadingStyle s;
     isComposing := isComposing s;
     isSubmittingReview := isSubmittingReview s; status := status s;
     images := images s; message := message s;
     deliverables := deliverables s; selected := v;
     imgFeedback := imgFeedback s; sendingImages := sendingImages s;
     finalStatus := finalStatus s; finalMessage := finalMessage s;
     finalVideos := finalVideos s |}.

Definition setImgFeedback (v : gmap jsstring jsstring) (s : Session) : Session :=
  {| activeTab := activeTab s; resumeUrl := resumeUrl s; prompt := prompt s;
     filesDocs := filesDocs s; filesStyle := filesStyle s;
     isTriggering := isTriggering s; isUploadingStyle := isUploadingStyle s;
     isComposing := isComposing s;
     isSubmittingReview := isSubmittingReview s; status := status s;
     images := images s; message := message s;
     deliverables := deliverables s; selected := selected s;
     imgFeedback := v; sendingImages := sendingImages s;
     finalStatus := finalStatus s; finalMessage := finalMessage s;
     finalVideos := finalVideos s |}.

Definition setSendingImages (v : bool) (s : Session) : Session :=
  {| activeTab := activeTab s; resumeUrl := resumeUrl s; prompt := prompt s;
     filesDocs := filesDocs s; filesStyle := filesStyle s;
     isTriggering := isTriggering s; isUploadingStyle := isUploadingStyle s;
     isComposing := isComposing s;
     isSubmittingReview := isSubmittingReview s; status := status s;
     images := images s; message := message s;
     deliverables := deliverables s; selected := selected s;
     imgFeedback := imgFeedback s; sendingImages := v;
     finalStatus := finalStatus s; finalMessage := finalMessage s;
     finalVideos := finalVideos s |}.

Definition setFinalStatus (v : Status) (s : Session) : Session :=
  {| activeTab := activeTab s; resumeUrl := resumeUrl s; prompt := prompt s;
     filesDocs := filesDocs s; filesStyle := filesStyle s;
     isTriggering := isTriggering s; isUploadingStyle := isUploadingStyle s;
     isComposing := isComposing s;
     isSubmittingReview := isSubmittingReview s; status := status s;
     images := images s; message := message s;
     deliverables := deliverables s; selected := selected s;
     imgFeedback := imgFeedback s; sendingImages := sendingImages s;
     finalStatus := v; finalMessage := finalMessage s;
     finalVideos := finalVideos s |}.

Definition setFinalMessage (v : jsstring) (s : Session) : Session :=
  {| activeTab := activeTab s; resumeUrl := resumeUrl s; prompt := prompt s;
     filesDocs := filesDocs s; filesStyle := filesStyle s;
     isTriggering := isTriggering s; isUploadingStyle := isUploadingStyle s;
     isComposing := isComposing s;
     isSubmittingReview := isSubmittingReview s; status := status s;
     images := images s; message := message s;
     deliverables := deliverables s; selected := selected s;
     imgFeedback := imgFeedback s; sendingImages := sendingImages s;
     finalStatus := finalStatus s; finalMessage := v;
     finalVideos := finalVideos s |}.

Definition setFinalVideos (v : list jsstring) (s : Session) : Session :=
  {| activeTab := activeTab s; resumeUrl := resumeUrl s; prompt := prompt s;
     filesDocs := filesDocs s; filesStyle := filesStyle s;
     isTriggering := isTriggering s; isUploadingStyle := isUploadingStyle s;
     isComposing := isComposing s;
     isSubmittingReview := isSubmittingReview s; status := status s;
     images := images s; message := message s;
     deliverables := deliverables s; selected := selected s;
     imgFeedback := imgFeedback s; sendingImages := sendingImages s;
     finalStatus := finalStatus s; finalMessage := finalMessage s;
     finalVideos := v |}.
(** The state of a freshly mounted component. *)
Definition initialSession : Session :=
  {| activeTab := TabTrigger; resumeUrl := []; prompt := [];
     filesDocs := []; filesStyle := [];
     isTriggering := false; isUploadingStyle := false;
     isComposing := false; isSubmittingReview := false; status := Idle;
     images := []; message := VStr [];
     deliverables := []; selected := ∅;
     imgFeedback := ∅; sendingImages := false;
     finalStatus := Idle; finalMessage := [];
     finalVideos := [] |}.

(** [resetAll] assigns every cell except the busy flags. *)
Definition resetAll (s : Session) : Session :=
  {| activeTab := TabTrigger; resumeUrl := []; prompt := [];
     filesDocs := []; filesStyle := [];
     isTriggering := isTriggering s; isUploadingStyle := isUploadingStyle s;
     isComposing := isComposing s;
     isSubmittingReview := isSubmittingReview s; status := Idle;
     images := []; message := VStr [];
     deliverables := []; selected := ∅;
     imgFeedback := ∅; sendingImages := sendingImages s;
     finalStatus := Idle; finalMessage := [];
     finalVideos := [] |}.

(** ** Selection bookkeeping of the Results step *)

(** [imgKey]: the template [`${src}-${i}`] *)
Definition imgKey (src : jsstring) (i : nat) : jsstring := src ++ lit "-" ++ dec i.

Arguments imgKey : simpl never.

(** The body of [images.forEach] in the effect: give the key of every
    image, from position [i] on, the default [d] unless it has an entry.
    A key ends in a dash and digits, so it never names an inherited
    property and [next[k] == null] holds exactly when the entry is
    missing. *)
Fixpoint init_missing {V} (d : V) (i : nat) (imgs : list jsstring)
    (next : gmap jsstring V) : gmap jsstring V :=
  match imgs with
  | [] => next
  | src :: r =>
      let k := imgKey src i in
      init_missing d (S i) r
        (match next !! k with
         | None => <[k := d]> next
         | Some _ => next
         end)
  end.

(** The effect that runs after every render in which [images] changed. *)
Definition imagesEffect (s : Session) : Session :=
  match images s with
  | [] => setImgFeedback ∅ (setSelected ∅ s)
  | _ :: _ =>
      setImgFeedback (init_missing [] 0 (images s) (imgFeedback s))
        (setSelected (init_missing false 0 (images s) (selected s)) s)
  end.

(** One element of the [selections] array of a request. *)
Record Selection := { image : jsstring; feedback : jsstring; index : nat }.

(** The [selections] computed by [sendSelectedImagesBack] and by
    [sendImagesForFinals]: [images.map(...).filter(Boolean)]. *)
Definition selections (imgs : list jsstring) (sel : gmap jsstring bool)
    (fb : gmap jsstring jsstring) : list Selection :=
  omap id
    (imap (fun i src =>
             let k := imgKey src i in
             if negb (default false (sel !! k)) then None
             else Some {| image := src; feedback := trim (default [] (fb !! k)); index := i |})
          imgs).

(** The entry of the image [src] at position [i]. *)
Definition selection_at (sel : gmap jsstring bool) (fb : gmap jsstring jsstring)
    (i : nat) (src : jsstring) : Selection :=
  {| image := src; feedback := trim (default [] (fb !! imgKey src i)); index := i |}.

(** [k] is the key of an image of the list [imgs]. *)
Definition listed (imgs : list jsstring) (k : jsstring) : Prop :=
  exists i src, imgs !! i = Some src /\ k = imgKey src i.

(** ** Network exchanges *)

Inductive Method := GET | POST.

Inductive FormEntry :=
| FileEntry (field : jsstring) (f : File)
| TextEntry (field : jsstring) (text : jsstring).

(** The argument of [JSON.stringify] in the two JSON submissions: the
    one-element array [[{ ok: true, resumeUrl, DELIVERABLES }]] or
    [[{ ok: true, resumeUrl, selections }]]. *)
Inductive Payload :=
| ReviewPayload (resume : jsstring) (DELIVERABLES : list (gmap jsstring jsstring))
| SelectionsPayload (resume : jsstring) (sels : list Selection).

Inductive Body :=
| NoBody
| FormBody (entries : list FormEntry)
| JsonBody (p : Payload).

Record Request := { url : jsstring; method : Method; body : Body }.

Record Response := { status_code : nat; resp_body : jsstring }.

(** [res.ok] *)
Definition resp_ok (r : Response) : bool :=
  (200 <=? status_code r) && (status_code r <=? 299).

Arguments resp_ok : simpl never.

(** What [await fetch(...)] yields: a response, or the error it rejects
    with (its [name] and [message]). *)
Inductive FetchOutcome :=
| Responded (r : Response)
| Failed (name : jsstring) (msg : jsstring).

(** A handler runs up to its next [await fetch(...)], where it hands the
    request over and is resumed with the outcome and with the state cells
    as they are then. *)
Inductive Res (A : Type) : Type :=
| Ret (a : A) (st : Session)
| Ask (st : Session) (rq : Request) (k : FetchOutcome -> Session -> Res A).

Arguments Ret {A} a st.
Arguments Ask {A} st rq k.

Definition M (A : Type) : Type := Session -> Res A.

Fixpoint bindR {A B} (r : Res A) (f : A -> M B) : Res B :=
  match r with
  | Ret a st => f a st
  | Ask st rq k => Ask st rq (fun o st' => bindR (k o st') f)
  end.

#[global] Instance M_ret : MRet M := fun A a st => Ret a st.
#[global] Instance M_bind : MBind M := fun A B f m st => bindR (m st) f.

(** A call of a state setter. *)
Definition modify (f : Session -> Session) : M unit := fun st => Ret tt (f st).

(** [await fetch(...)] *)
Definition fetch (rq : Request) : M FetchOutcome :=
  fun st => Ask st rq (fun o st' => Ret o st').

Definition when (b : bool) (m : M unit) : M unit := if b then m else mret tt.

(** [void child()] followed by [rest], which does not await: the child runs
    up to its first request, then [rest] runs, and the child is resumed
    when the reply arrives. *)
Definition spawn (child : M unit) (rest : Session -> Session) : M unit :=
  fun st =>
    match child st with
    | Ret a st1 => Ret a (rest st1)
    | Ask st1 rq k => Ask (rest st1) rq k
    end.

(** Feed the replies of the engine to a handler, in order: the requests it
    sent, the state it left, and whether it ran to its end. *)
Fixpoint run {A} (r : Res A) (replies : list FetchOutcome)
    : list Request * Session * bool :=
  match r with
  | Ret _ st => ([], st, true)
  | Ask st rq k =>
      match replies with
      | [] => ([rq], st, false)
      | o :: os => let '(rqs, st', fin) := run (k o st) os in (rq :: rqs, st', fin)
      end
  end.

Definition requests_of (x : list Request * Session * bool) : list Request := x.1.1.
Definition state_of (x : list Request * Session * bool) : Session := x.1.2.

(** ** Step handlers *)

(** [!s] for a string [s] is [s === ''] *)
Definition nonempty (s : jsstring) : bool := negb (bool_decide (s = [])).

(** [s || d] for strings *)
Definition or_default (s d : jsstring) : jsstring := if nonempty s then s else d.

(** The text [JSON.parse]d when it parses, and the text itself otherwise:
    [try { data = JSON.parse(text); } catch { data = text; }] *)
Definition parse_or_text `{Platform} (text : jsstring) : Value :=
  match JSON_parse text with
  | Some v => v
  | None => VStr text
  end.

(** [Array.isArray(data) ? (data[0] ?? {}) : (data ?? {})] *)
Definition root_of (data : Value) : Value :=
  if isArray data then nullish_or (first_elem data) (VObj [])
  else nullish_or data (VObj []).

(** [Array.isArray(data) ? data[0] : data] *)
Definition maybe_root (data : Value) : Value :=
  if isArray data then first_elem data else data.

(** [Object.entries(d)] for a value that is not nullish *)
Definition entries (d : Value) : list (jsstring * Value) :=
  match d with
  | VObj fs => fs
  | VArr l => imap (fun i e => (dec i, e)) l
  | VStr s => imap (fun i c => (dec i, VStr [c])) s
  | _ => []
  end.

(** One deliverable with every member converted to a string:
    [Object.entries(d || {}).forEach(([k, v]) => (out[k] = String(v ?? '')))].
    The assignment [out['__proto__'] = ...] of a string does not create a
    member. *)
Definition normalizeDeliverable (d : Value) : gmap jsstring jsstring :=
  foldl (fun out kv =>
           if bool_decide (kv.1 = lit "__proto__") then out
           else <[kv.1 := ToString (nullish_or kv.2 (VStr []))]> out)
        ∅ (entries (js_or d (VObj []))).

(** [(ds as any[]).map(...)]: the normalized records, or [None] when [ds]
    has no [map] method and the call throws a [TypeError]. *)
Definition normalizeDeliverables (ds : Value) : option (list (gmap jsstring jsstring)) :=
  match ds with
  | VArr l => Some (normalizeDeliverable <$> l)
  | _ => None
  end.

Definition waiting_for_images : jsstring := lit "Waiting for images from n8n" ++ [8230%N].
Definition waiting_for_videos : jsstring := lit "Waiting for videos from n8n" ++ [8230%N].
Definition generating_videos : jsstring :=
  lit "Generating videos from selected images" ++ [8230%N].
Definition workflow_was_started_guidance : jsstring :=
  lit "Got " ++ [8220%N] ++ lit "Workflow was started" ++ [8221%N]
  ++ lit ". Ensure POST hits /webhook-wait/ and Webhook uses "
  ++ [8220%N] ++ lit "Respond to Webhook" ++ [8221%N] ++ lit ".".
Definition could_not_parse : jsstring := lit "Could not parse response JSON from n8n.".

(** [if (v.resumeUrl) setResumeUrl(String(v.resumeUrl))] *)
Definition adopt (v : Value) (st : Session) : Session :=
  if truthy (get v "resumeUrl") then setResumeUrl (ToString (get v "resumeUrl")) st
  else st.

Definition adoptResumeUrl (v : Value) : M unit := modify (adopt v).

Section Handlers.
Context `{Platform}.

(** [submitUploadStyle] *)
Definition submitUploadStyle (snap : Session) : M unit :=
  let catch (msg : jsstring) := modify (setMessage (VStr (or_default msg (lit "Upload error")))) in
  if negb (nonempty (resumeUrl snap)) then mret tt
  else
    modify (setIsUploadingStyle true);;
    modify (setMessage (VStr []));;
    (o ← fetch {| url := toProxied (resumeUrl snap); method := POST;
                  body := FormBody (FileEntry (lit "data") <$> filesStyle snap) |};
     match o with
     | Failed _ msg => catch msg
     | Responded res =>
         if negb (resp_ok res) then catch (lit "Upload failed: " ++ dec (status_code res))
         else
           let next := default VNull (JSON_parse (resp_body res)) in
           when (truthy next) (adoptResumeUrl next);;
           modify (setActiveTab TabCompose)
     end);;
    modify (setIsUploadingStyle false).

(** [fetchReview] *)
Definition fetchReview (snap : Session) : M unit :=
  let catch (msg : jsstring) :=
    modify (setMessage (VStr (or_default msg (lit "Could not load prompts for review")))) in
  if negb (nonempty (resumeUrl snap)) then mret tt
  else
    modify (setIsSubmittingReview true);;
    modify (setMessage (VStr []));;
    (o ← fetch {| url := toProxied (resumeUrl snap); method := GET; body := NoBody |};
     match o with
     | Failed _ msg => catch msg
     | Responded res =>
         if negb (resp_ok res) then
           catch (lit "Failed to fetch review payload: " ++ dec (status_code res))
         else
           let root := maybe_root (parse_or_text (resp_body res)) in
           if negb (truthy root) || negb (truthy (get root "DELIVERABLES")) then
             catch (lit "No DELIVERABLES found in payload")
           else
             adoptResumeUrl root;;
             match normalizeDeliverables (get root "DELIVERABLES") with
             | None => catch (not_a_function "root.DELIVERABLES.map")
             | Some normalized =>
                 modify (setDeliverables normalized);;
                 modify (setActiveTab TabReview)
             end
     end);;
    modify (setIsSubmittingReview false).

(** [submitCompose].  The call [void fetchReview()] is not awaited, so
    the [finally] clause runs as soon as [fetchReview] has sent its
    request; [fetchReview] reads [resumeUrl] from the same render. *)
Definition submitCompose (snap : Session) : M unit :=
  let catch (msg : jsstring) :=
    modify (setMessage (VStr (or_default msg (lit "Failed sending files + prompt")))) in
  let finally := setIsComposing false in
  if negb (nonempty (resumeUrl snap)) then mret tt
  else
    modify (setIsComposing true);;
    modify (setMessage (VStr []));;
    o ← fetch {| url := toProxied (resumeUrl snap); method := POST;
                 body := FormBody ((FileEntry (lit "files") <$> filesDocs snap)
                                   ++ [TextEntry (lit "prompt") (prompt snap)]) |};
    match o with
    | Failed _ msg => catch msg;; modify finally
    | Responded res =>
        if negb (resp_ok res) then
          catch (lit "Compose step failed: " ++ dec (status_code res));; modify finally
        else
          let next := default VNull (JSON_parse (resp_body res)) in
          let maybeRoot := maybe_root next in
          if truthy maybeRoot && truthy (get maybeRoot "DELIVERABLES") then
            adoptResumeUrl maybeRoot;;
            match normalizeDeliverables (get maybeRoot "DELIVERABLES") with
            | None => catch (not_a_function "maybeRoot.DELIVERABLES.map");; modify finally
            | Some normalized =>
                modify (setDeliverables normalized);;
                modify (setActiveTab TabReview);;
                modify finally
            end
          else
            when (truthy next) (adoptResumeUrl next);;
            modify (setActiveTab TabReview);;
            spawn (fetchReview snap) finally
    end.

(** [fetchResults].  Aborting the previous poll through
    [resultsAbortRef] acts on another exchange and is not part of this
    one; a poll that is aborted itself is resumed with an [AbortError]. *)
Definition fetchResults (snap : Session) : M unit :=
  if negb (nonempty (resumeUrl snap)) then mret tt
  else
    modify (setStatus Pending);;
    o ← fetch {| url := toProxied (resumeUrl snap); method := GET; body := NoBody |};
    let catch (name msg : jsstring) : M unit :=
      if bool_decide (name = lit "AbortError") then mret tt
      else modify (setStatus Error);;
           modify (setMessage (VStr (or_default msg (lit "Polling failed")))) in
    match o with
    | Failed name msg => catch name msg
    | Responded res =>
        if negb (resp_ok res) then
          catch (lit "Error") (lit "Polling error: " ++ dec (status_code res))
        else
          let data := parse_or_text (resp_body res) in
          let finish (imgs : list jsstring) (msg : Value) (state : option Status) : M unit :=
            if bool_decide (state = Some Error) then
              modify (setStatus Error);;
              modify (setMessage (js_or msg (VStr (lit "An error occurred in the workflow"))))
            else if 0 <? length imgs then
              modify (setImages imgs);;
              modify (setStatus Done);;
              when (truthy msg) (modify (setMessage msg))
            else
              modify (setStatus (default Pending state));;
              when (negb (truthy msg)) (modify (setMessage (VStr waiting_for_images))) in
          if is_object data && has_key "status" data then
            let imgs := normalizeImages (get data "images") in
            let msg := js_or (get data "message") (VStr []) in
            let st := toLowerCase (ToString (js_or (get data "status") (VStr []))) in
            let state :=
              if bool_decide (st = lit "done") then Done
              else if bool_decide (st = lit "error") then Error else Pending in
            finish imgs msg (Some state)
          else
            let root := coerceRootFromAny data in
            let imgs := normalizeImages (get root "images") in
            let msg := js_or (get root "message") (VStr []) in
            let state := if truthy (get root "ok") then Some Done else None in
            adoptResumeUrl root;;
            finish imgs msg state
    end.

(** [sendBackToN8n] *)
Definition sendBackToN8n (snap : Session) : M unit :=
  let catch (msg : jsstring) :=
    modify (setMessage (VStr (or_default msg (lit "Submission error")))) in
  if negb (nonempty (resumeUrl snap)) then mret tt
  else if isSubmittingReview snap then mret tt
  else
    modify (setIsSubmittingReview true);;
    modify (setMessage (VStr []));;
    (o ← fetch {| url := toProxied (resumeUrl snap); method := POST;
                  body := JsonBody (ReviewPayload (resumeUrl snap) (deliverables snap)) |};
     match o with
     | Failed _ msg => catch msg
     | Responded res =>
         if negb (resp_ok res) then
           catch (lit "Failed to submit review: " ++ dec (status_code res))
         else
           let root := root_of (parse_or_text (resp_body res)) in
           adoptResumeUrl root;;
           let imgs := normalizeImages (get root "images") in
           let msg := js_or (get root "message") (VStr []) in
           let st := toLowerCase (ToString (js_or (get root "status") (VStr []))) in
           if 0 <? length imgs then
             modify (setImages imgs);;
             modify (setStatus Done);;
             when (truthy msg) (modify (setMessage msg));;
             modify (setActiveTab TabResults)
           else if bool_decide (st = lit "done") then
             modify (setStatus Done);;
             when (truthy msg) (modify (setMessage msg));;
             modify (setActiveTab TabResults)
           else if bool_decide (st = lit "error") then
             modify (setStatus Error);;
             modify (setMessage (js_or msg (VStr (lit "An error occurred in the workflow"))));;
             modify (setActiveTab TabResults)
           else
             modify (setActiveTab TabResults);;
             fetchResults snap
     end);;
    modify (setIsSubmittingReview false).

(** The request of [sendSelectedImagesBack] and of
    [sendImagesForFinals]. *)
Definition selections_request (snap : Session) : Request :=
  {| url := toProxied (resumeUrl snap); method := POST;
     body := JsonBody (SelectionsPayload (resumeUrl snap)
               (selections (images snap) (selected snap) (imgFeedback snap))) |}.

(** [sendSelectedImagesBack] *)
Definition sendSelectedImagesBack (snap : Session) : M unit :=
  if negb (nonempty (resumeUrl snap)) then mret tt
  else
    let sels := selections (images snap) (selected snap) (imgFeedback snap) in
    if length sels =? 0 then
      modify (setMessage (VStr (lit "Select at least one image before sending.")))
    else
      modify (setSendingImages true);;
      modify (setMessage (VStr []));;
      modify (setStatus Pending);;
      (o ← fetch {| url := toProxied (resumeUrl snap); method := POST;
                    body := JsonBody (SelectionsPayload (resumeUrl snap) sels) |};
       match o with
       | Failed _ msg =>
           modify (setStatus Error);;
           modify (setMessage (VStr (or_default msg (lit "Failed to send selected images"))))
       | Responded res =>
           if negb (resp_ok res) then
             modify (setStatus Error);;
             modify (setMessage (VStr (trim (lit "n8n responded " ++ dec (status_code res)
                                             ++ lit ". " ++ resp_body res))))
           else
             let root := root_of (parse_or_text (resp_body res)) in
             adoptResumeUrl root;;
             let imgs := normalizeImages (get root "images") in
             let msg := js_or (get root "message") (VStr []) in
             let st := toLowerCase (ToString (js_or (get root "status") (VStr []))) in
             if bool_decide (st = lit "error") then
               modify (setStatus Error);;
               modify (setMessage (js_or msg (VStr (lit "Workflow reported an error."))))
             else if 0 <? length imgs then
               modify (setImages imgs);;
               modify (setStatus Done);;
               when (truthy msg) (modify (setMessage msg));;
               modify (setActiveTab TabResults)
             else
               modify (setStatus Pending);;
               modify (setMessage (js_or msg (VStr waiting_for_images)))
       end);;
      modify (setSendingImages false).

(** The text between the first opening bracket or brace of [raw] and the
    last closing one, when the latter comes after the former:
    [raw.slice(start, end + 1)] under the test [start >= 0 && end > start].
    [Math.min()] of no index is [Infinity], which no [end] exceeds. *)
Definition embedded_json (raw : jsstring) : option jsstring :=
  let start :=
    match indexOf 91 raw, indexOf 123 raw with
    | Some a, Some b => Some (min a b)
    | Some a, None => Some a
    | None, Some b => Some b
    | None, None => None
    end in
  let end_ :=
    match lastIndexOf 93 raw, lastIndexOf 125 raw with
    | Some a, Some b => Some (max a b)
    | Some a, None => Some a
    | None, Some b => Some b
    | None, None => None
    end in
  match start, end_ with
  | Some s, Some e => if s <? e then Some (slice s (e + 1) raw) else None
  | _, _ => None
  end.

(** The parse of the Finals response: the whole text, and when that
    fails the embedded text.  [null] when neither parses. *)
Definition parse_finals (raw : jsstring) : Value :=
  match JSON_parse raw with
  | Some v => v
  | None =>
      match embedded_json raw with
      | Some t => default VNull (JSON_parse t)
      | None => VNull
      end
  end.

(** [/^(https?:\/\/|\/)/i.test(s)] *)
Definition address_shaped (s : jsstring) : bool :=
  startsWith_ci s (lit "http://") || startsWith_ci s (lit "https://")
  || startsWith s (lit "/").

(** [/\[filled at execution time\]/i.test(s)] *)
Definition is_placeholder (s : jsstring) : bool :=
  includes_ci s (lit "[filled at execution time]").

(** [xs.map(String).filter(Boolean)] *)
Definition nonempty_strings (xs : list Value) : list jsstring :=
  filter (fun s => s ≠ []) (ToString <$> xs).

(** [pickList] *)
Definition pickList (val : Value) : list jsstring :=
  match val with
  | VArr xs => nonempty_strings xs
  | VStr s =>
      match JSON_parse s with
      | Some (VArr arr) => nonempty_strings arr
      | _ => filter (fun s => s ≠ []) (trim <$> split_commas s)
      end
  | _ => []
  end.

(** [a || b] for two arrays: an array is an object, and every object is
    truthy, the empty array too. *)
Definition array_truthy {A} (a : list A) : bool := true.
Definition or_array {A} (a b : list A) : list A := if array_truthy a then a else b.

(** The [videos] of a Finals response. *)
Definition videos_of (root : Value) : list jsstring :=
  or_array (pickList (get root "videos"))
    (or_array (pickList (get root "VIDEOS"))
       (or_array (pickList (get root "media"))
          (or_array (pickList (get root "urls")) []))).

(** [sendImagesForFinals] *)
Definition sendImagesForFinals (snap : Session) : M unit :=
  if negb (nonempty (resumeUrl snap)) then mret tt
  else
    let sels := selections (images snap) (selected snap) (imgFeedback snap) in
    if length sels =? 0 then
      modify (setMessage (VStr (lit "Select at least one image before sending.")))
    else
      modify (setActiveTab TabFinals);;
      modify (setFinalStatus Pending);;
      modify (setFinalMessage generating_videos);;
      o ← fetch {| url := toProxied (resumeUrl snap); method := POST;
                   body := JsonBody (SelectionsPayload (resumeUrl snap) sels) |};
      match o with
      | Failed _ msg =>
          modify (setFinalStatus Error);;
          modify (setFinalMessage (or_default msg (lit "Failed to request videos")))
      | Responded res =>
          let raw := resp_body res in
          if negb (resp_ok res) then
            modify (setFinalStatus Error);;
            modify (setFinalMessage (trim (lit "n8n responded " ++ dec (status_code res)
                                           ++ lit ". " ++ raw)))
          else
            let data := parse_finals raw in
            if negb (truthy data) then
              if includes_ci raw (lit "Workflow was started") then
                modify (setFinalStatus Error);;
                modify (setFinalMessage workflow_was_started_guidance)
              else
                modify (setFinalStatus Error);;
                modify (setFinalMessage could_not_parse)
            else
              let root := if isArray data then nullish_or (first_elem data) (VObj []) else data in
              let maybeResume := ToString (js_or (get root "resumeUrl") (VStr [])) in
              when (address_shaped maybeResume && negb (is_placeholder maybeResume))
                   (modify (setResumeUrl maybeResume));;
              let videos := videos_of root in
              let msg := ToString (js_or (get root "message") (VStr [])) in
              let st := toLowerCase (ToString (js_or (get root "status") (VStr []))) in
              let ok := truthy (get root "ok") in
              if (0 <? length videos) || ok || bool_decide (st = lit "done") then
                modify (setFinalVideos videos);;
                modify (setFinalStatus Done);;
                modify (setFinalMessage
                          (or_default msg
                             (if 0 <? length videos
                              then lit "Received " ++ dec (length videos) ++ lit " video(s)."
                              else lit "Done.")))
              else
                modify (setFinalStatus Pending);;
                modify (setFinalMessage (or_default msg waiting_for_videos))
      end.

End Handlers.

(** ** A reference platform

    A small executable stand-in for the browser, used to run the handlers
    on concrete response bodies.  It is partial: the JSON reader accepts
    the JSON texts whose numbers are integers of at most fifteen digits
    and reports a syntax error for every other text; the URL reader
    accepts [http] and [https] addresses whose host, path and query need
    no normalisation and rejects every other text.  On the texts they
    accept, both agree with [JSON.parse] and with [new URL]. *)
Module Reference.

(** White space of the JSON grammar. *)
Definition json_ws (c : N) : bool :=
  ((c =? 32) || (c =? 9) || (c =? 10) || (c =? 13))%N.

Fixpoint skip_ws (s : jsstring) : jsstring :=
  match s with
  | c :: r => if json_ws c then skip_ws r else s
  | [] => []
  end.

Definition is_digit (c : N) : bool := ((48 <=? c) && (c <=? 57))%N.

Fixpoint digits (s : jsstring) : jsstring * jsstring :=
  match s with
  | c :: r => if is_digit c then let '(d, t) := digits r in (c :: d, t) else ([], s)
  | [] => ([], [])
  end.

(** An integer literal and its rendering by [String]. *)
Definition read_number (s : jsstring) : option (Value * jsstring) :=
  let '(neg, s1) := match s with
                    | 45%N :: r => (true, r)
                    | _ => (false, s)
                    end in
  let '(d, rest) := digits s1 in
  match d, rest with
  | [], _ => None
  | _, (46%N | 69%N | 101%N) :: _ => None
  | [48%N], _ => Some (VNum (lit "0"), rest)
  | 48%N :: _, _ => None
  | _, _ =>
      if length d <=? 15 then Some (VNum ((if neg then lit "-" else []) ++ d), rest)
      else None
  end.

Definition hex_digit (c : N) : option N :=
  if ((48 <=? c) && (c <=? 57))%N then Some (c - 48)%N
  else if ((65 <=? c) && (c <=? 70))%N then Some (c - 55)%N
  else if ((97 <=? c) && (c <=? 102))%N then Some (c - 87)%N
  else None.

(** The characters of a string literal after its opening quote. *)
Fixpoint read_string (s : jsstring) : option (jsstring * jsstring) :=
  match s with
  | [] => None
  | 34%N :: r => Some ([], r)
  | 92%N :: 117%N :: a :: b :: c :: d :: r =>
      match hex_digit a, hex_digit b, hex_digit c, hex_digit d, read_string r with
      | Some a, Some b, Some c, Some d, Some (t, rest) =>
          Some ((a * 4096 + b * 256 + c * 16 + d)%N :: t, rest)
      | _, _, _, _, _ => None
      end
  | 92%N :: e :: r =>
      let unescaped :=
        match e with
        | 34%N => Some 34%N | 92%N => Some 92%N | 47%N => Some 47%N
        | 98%N => Some 8%N | 102%N => Some 12%N | 110%N => Some 10%N
        | 114%N => Some 13%N | 116%N => Some 9%N
        | _ => None
        end in
      match unescaped, read_string r with
      | Some c, Some (t, rest) => Some (c :: t, rest)
      | _, _ => None
      end
  | c :: r =>
      if (c <? 32)%N then None
      else match read_string r with
           | Some (t, rest) => Some (c :: t, rest)
           | None => None
           end
  end.

Fixpoint read_value (fuel : nat) (s : jsstring) : option (Value * jsstring) :=
  match fuel with
  | 0 => None
  | S fuel =>
      let read_elems :=
        fix read_elems (n : nat) (s : jsstring) : option (list Value * jsstring) :=
          match n with
          | 0 => None
          | S n =>
              match read_value fuel s with
              | Some (v, r) =>
                  match skip_ws r with
                  | 44%N :: r' =>
                      match read_elems n r' with
                      | Some (vs, r'') => Some (v :: vs, r'')
                      | None => None
                      end
                  | 93%N :: r' => Some ([v], r')
                  | _ => None
                  end
              | None => None
              end
          end in
      let read_members :=
        fix read_members (n : nat) (s : jsstring)
            : option (list (jsstring * Value) * jsstring) :=
          match n with
          | 0 => None
          | S n =>
              match skip_ws s with
              | 34%N :: r =>
                  match read_string r with
                  | Some (k, r1) =>
                      match skip_ws r1 with
                      | 58%N :: r2 =>
                          match read_value fuel r2 with
                          | Some (v, r3) =>
                              match skip_ws r3 with
                              | 44%N :: r4 =>
                                  match read_members n r4 with
                                  | Some (ms, r5) => Some ((k, v) :: ms, r5)
                                  | None => None
                                  end
                              | 125%N :: r4 => Some ([(k, v)], r4)
                              | _ => None
                              end
                          | None => None
                          end
                      | _ => None
                      end
                  | None => None
                  end
              | _ => None
              end
          end in
      match skip_ws s with
      | 110%N :: 117%N :: 108%N :: 108%N :: r => Some (VNull, r)
      | 116%N :: 114%N :: 117%N :: 101%N :: r => Some (VBool true, r)
      | 102%N :: 97%N :: 108%N :: 115%N :: 101%N :: r => Some (VBool false, r)
      | 34%N :: r =>
          match read_string r with
          | Some (t, rest) => Some (VStr t, rest)
          | None => None
          end
      | 91%N :: r =>
          match skip_ws r with
          | 93%N :: r' => Some (VArr [], r')
          | _ =>
              match read_elems (length r) r with
              | Some (vs, rest) => Some (VArr vs, rest)
              | None => None
              end
          end
      | 123%N :: r =>
          match skip_ws r with
          | 125%N :: r' => Some (VObj [], r')
          | _ =>
              match read_members (length r) r with
              | Some (ms, rest) => Some (VObj ms, rest)
              | None => None
              end
          end
      | s' => read_number s'
      end
  end.

Definition parse_json (s : jsstring) : option Value :=
  match read_value (S (length s)) s with
  | Some (v, rest) =>
      match skip_ws rest with
      | [] => Some v
      | _ :: _ => None
      end
  | None => None
  end.

(** The text up to the first character satisfying [stop], and the rest. *)
Fixpoint span_until (stop : N -> bool) (s : jsstring) : jsstring * jsstring :=
  match s with
  | c :: r => if stop c then ([], s) else let '(a, b) := span_until stop r in (c :: a, b)
  | [] => ([], [])
  end.

Definition after_scheme (s : jsstring) : option jsstring :=
  if startsWith_ci s (lit "http://") then Some (drop 7 s)
  else if startsWith_ci s (lit "https://") then Some (drop 8 s)
  else None.

Definition parse_url (s : jsstring) : option URL :=
  match after_scheme s with
  | None => None
  | Some r =>
      let '(host, r1) := span_until (fun c => (c =? 47) || (c =? 63) || (c =? 35))%N r in
      let '(path, r2) := span_until (fun c => (c =? 63) || (c =? 35))%N r1 in
      let '(query, _) := span_until (fun c => (c =? 35))%N r2 in
      if nonempty host then
        Some {| pathname := if nonempty path then path else lit "/";
                search := if 1 <? length query then query else [] |}
      else None
  end.

#[global] Instance platform : Platform := {|
  JSON_parse := parse_json;
  URL_parse := parse_url;
  not_a_function := fun e => lit e ++ lit " is not a function"
|}.

End Reference.

(** ** The development proxy *)

(** [rewrite: (path) => path.replace(/^\/api/, '')] of [vite.config.ts],
    applied to the path of a request that the proxy forwards. *)
Definition proxy_rewrite (path : jsstring) : jsstring :=
  if startsWith path (lit "/api") then drop 4 path else path.

(** ** The controls of the Review and Results steps *)

(** The [key] of each rendered image: [images.map((src, i) => imgKey(src, i))]. *)
Definition render_keys (imgs : list jsstring) : list jsstring :=
  imap (fun i src => imgKey src i) imgs.

(** [onChange] of the check box of the image with key [k]:
    [setSelected((prev) => ({ ...prev, [k]: e.target.checked }))] *)
Definition checkImage (k : jsstring) (checked : bool) (s : Session) : Session :=
  setSelected (<[k := checked]> (selected s)) s.

(** [onChange] of the feedback box of the image with key [k]:
    [setImgFeedback((prev) => ({ ...prev, [k]: e.target.value }))] *)
Definition editFeedback (k : jsstring) (text : jsstring) (s : Session) : Session :=
  setImgFeedback (<[k := text]> (imgFeedback s)) s.

(** The number shown by the [selected:] badge:
    [Object.values(selected).filter(Boolean).length] *)
Definition selected_count (sel : gmap jsstring bool) : nat :=
  length (filter (fun kv => kv.2 = true) (map_to_list sel)).

(** [updateDeliverable]: [copy[idx] = { ...copy[idx], [key]: value }] on a
    copy of the list.  At [idx = length] the assignment appends the record
    with the one member; beyond that it leaves holes in the array, which a
    list does not have: [None]. *)
Definition updateDeliverable (idx : nat) (key value : jsstring)
    (prev : list (gmap jsstring jsstring)) : option (list (gmap jsstring jsstring)) :=
  if idx <? length prev then Some (alter (insert key value) idx prev)
  else if idx =? length prev then Some (prev ++ [{[ key := value ]}])
  else None.

(** [getSceneDescription], for a deliverable given by its members in the
    order of [Object.entries]; a member that is missing reads as the empty
    string, which is falsy as [undefined] is. *)
Definition getSceneDescription (d : list (jsstring * jsstring)) : jsstring :=
  let member (k : string) : jsstring :=
    default [] (snd <$> find (fun kv => bool_decide (kv.1 = lit k)) d) in
  if nonempty (member "Scene Description") then member "Scene Description"
  else
    match find (fun kv => includes_ci kv.1 (lit "scene")
                          && includes_ci kv.1 (lit "description")) d with
    | Some found => found.2
    | None => if nonempty (member "Description") then member "Description" else []
    end.

(** ** Outcomes and interleavings *)

(** A rejected [fetch], or a response whose status is not in the 2xx
    range. *)
Definition transport_failure (o : FetchOutcome) : bool :=
  match o with
  | Failed _ _ => true
  | Responded res => negb (resp_ok res)
  end.


(** * Properties *)

(** ** Trimming *)

Lemma trimStart_head (s : jsstring) (c : N) :
  head (trimStart s) = Some c -> is_ws c = false.
Proof.
  induction s as [|a s IH]; simpl; [discriminate|].
  destruct (is_ws a) eqn:Ha; [exact IH|].
  simpl. intros [= <-]. exact Ha.
Qed.

Lemma trimStart_suffix (s : jsstring) : exists p, s = p ++ trimStart s.
Proof.
  induction s as [|a s [p IH]]; simpl.
  - exists []. reflexivity.
  - destruct (is_ws a).
    + exists (a :: p). simpl. f_equal. exact IH.
    + exists []. reflexivity.
Qed.

Lemma trimEnd_prefix (s : jsstring) : exists q, s = trimEnd s ++ q.
Proof.
  unfold trimEnd. destruct (trimStart_suffix (rev s)) as [p Hp].
  exists (rev p). rewrite <- rev_app_distr, <- Hp, rev_involutive. reflexivity.
Qed.

Lemma trim_no_outer_ws (s : jsstring) : no_outer_ws (trim s) = true.
Proof.
  unfold no_outer_ws, trim. apply andb_true_intro. split.
  - destruct (trimEnd_prefix (trimStart s)) as [q Hq].
    destruct (trimEnd (trimStart s)) as [|c t] eqn:E; [reflexivity|].
    rewrite (trimStart_head s c); [reflexivity|].
    rewrite Hq. reflexivity.
  - unfold trimEnd. rewrite rev_involutive.
    destruct (trimStart (rev (trimStart s))) as [|c t] eqn:E; [reflexivity|].
    rewrite (trimStart_head (rev (trimStart s)) c); [reflexivity|].
    rewrite E. reflexivity.
Qed.

Lemma trimmed_strings_spec (xs : list Value) (s : jsstring) :
  s ∈ trimmed_strings xs -> s ≠ [] /\ no_outer_ws s = true.
Proof.
  unfold trimmed_strings. rewrite list_elem_of_filter, list_elem_of_fmap.
  intros [Hne (v & -> & _)]. split; [exact Hne|apply trim_no_outer_ws].
Qed.

(** ** The address resolver *)

Section Resolver.
Context `{Platform}.

Lemma toProxied_prefixed (x : jsstring) :
  URL_parse x = None -> startsWith x (lit "/api") = true -> toProxied x = x.
Proof. intros Hrel Hpre. unfold toProxied. rewrite Hrel, Hpre. reflexivity. Qed.

(** C8: the resolver is idempotent on a relative address that already
    starts with the local prefix [/api]: resolving it twice gives what
    resolving it once gives. *)
Theorem toProxied_idempotent (x : jsstring) :
  URL_parse x = None -> startsWith x (lit "/api") = true ->
  toProxied (toProxied x) = toProxied x.
Proof.
  intros Hrel Hpre. rewrite !(toProxied_prefixed x Hrel Hpre). reflexivity.
Qed.

Lemma toProxied_parsed (x : jsstring) (u : URL) :
  URL_parse x = Some u -> toProxied x = lit "/api" ++ pathname u ++ search u.
Proof. intros Hu. unfold toProxied. rewrite Hu. reflexivity. Qed.

End Resolver.

Lemma toProxied_idempotent_witness :
  @toProxied Reference.platform
    (@toProxied Reference.platform (lit "/api/webhook-wait/1"))
  = @toProxied Reference.platform (lit "/api/webhook-wait/1").
Proof.
  apply (@toProxied_idempotent Reference.platform (lit "/api/webhook-wait/1"));
    reflexivity.
Defined.

(** C9: when the input parses as an absolute URL, the resolver returns the
    local prefix followed by the path and the query string of that URL,
    without its scheme and host; the address
    [https://host.example/webhook-wait/abc?x=1] resolves to
    [/api/webhook-wait/abc?x=1]. *)
Theorem toProxied_absolute :
  (forall (P : Platform) (x : jsstring) (u : URL),
      URL_parse x = Some u -> toProxied x = lit "/api" ++ pathname u ++ search u)
  /\ @toProxied Reference.platform (lit "https://host.example/webhook-wait/abc?x=1")
     = lit "/api/webhook-wait/abc?x=1".
Proof.
  split.
  - intros P x u Hu. apply toProxied_parsed. exact Hu.
  - reflexivity.
Qed.

Lemma toProxied_absolute_witness :
  @toProxied Reference.platform (lit "http://localhost:5678/webhook-wait/7?token=a#top")
  = lit "/api" ++ lit "/webhook-wait/7" ++ lit "?token=a".
Proof.
  apply (proj1 toProxied_absolute Reference.platform
           (lit "http://localhost:5678/webhook-wait/7?token=a#top")
           {| pathname := lit "/webhook-wait/7"; search := lit "?token=a" |}).
  reflexivity.
Defined.

(** ** Image list coercion *)

Section Images.
Context `{Platform}.

Lemma fallback_spec (pieces : list jsstring) (s : jsstring) :
  s ∈ filter (fun s => s ≠ []) ((fun s => trim (strip_quotes s)) <$> pieces) ->
  s ≠ [] /\ no_outer_ws s = true.
Proof.
  rewrite list_elem_of_filter, list_elem_of_fmap.
  intros [Hne (v & -> & _)]. split; [exact Hne|apply trim_no_outer_ws].
Qed.


End Images.


(** ** Selection and feedback maps *)

Section InitMissing.
Context {V : Type} (d : V).

Lemma init_missing_keeps (imgs : list jsstring) (i : nat)
    (next : gmap jsstring V) (k : jsstring) (v : V) :
  next !! k = Some v -> init_missing d i imgs next !! k = Some v.
Proof.
  revert i next. induction imgs as [|src r IH]; intros i next Hk; simpl; [exact Hk|].
  apply IH. destruct (next !! imgKey src i) eqn:E; [exact Hk|].
  rewrite lookup_insert_ne; [exact Hk|]. intros Heq. rewrite Heq in E. congruence.
Qed.

Lemma init_missing_covers (imgs : list jsstring) (i j : nat)
    (next : gmap jsstring V) (src : jsstring) :
  imgs !! j = Some src -> is_Some (init_missing d i imgs next !! imgKey src (i + j)).
Proof.
  revert i j next. induction imgs as [|a r IH]; intros i j next Hj; [inversion Hj|].
  destruct j as [|j]; simpl in *.
  - injection Hj as ->. rewrite Nat.add_0_r.
    destruct (next !! imgKey src i) as [v|] eqn:E.
    + exists v. apply init_missing_keeps. exact E.
    + exists d. apply init_missing_keeps. apply lookup_insert_eq.
  - replace (i + S j) with (S i + j) by lia. apply IH. exact Hj.
Qed.

Lemma init_missing_origin (imgs : list jsstring) (i : nat)
    (next : gmap jsstring V) (k : jsstring) (v : V) :
  init_missing d i imgs next !! k = Some v ->
  next !! k = Some v
  \/ (next !! k = None /\ v = d
      /\ exists j src, imgs !! j = Some src /\ k = imgKey src (i + j)).
Proof.
  revert i next. induction imgs as [|a r IH]; intros i next Hk; simpl in *; [left; exact Hk|].
  apply IH in Hk as [Hk|(Hn & -> & j & src & Hj & ->)].
  - destruct (next !! imgKey a i) eqn:E; [left; exact Hk|].
    destruct (decide (imgKey a i = k)) as [<-|Hne].
    + rewrite lookup_insert_eq in Hk. injection Hk as <-.
      right. split; [exact E|]. split; [reflexivity|].
      exists 0, a. rewrite Nat.add_0_r. split; reflexivity.
    + rewrite lookup_insert_ne in Hk by exact Hne. left. exact Hk.
  - right. split; [|split; [reflexivity|]].
    + destruct (next !! imgKey a i) eqn:E; [exact Hn|].
      destruct (decide (imgKey a i = imgKey src (S i + j))) as [Heq|Hne].
      * rewrite <- Heq. exact E.
      * rewrite lookup_insert_ne in Hn by exact Hne. exact Hn.
    + exists (S j), src. split; [exact Hj|]. f_equal. lia.
Qed.

End InitMissing.

(** C3, as the effect has it: after a change of the image list both maps
    have an entry for the key of every listed image, and an entry that was
    there for such a key keeps its value.  When the new list is empty both
    maps are emptied; when it is not, every earlier entry is kept with its
    value, the entries of images no longer listed too, and the only
    entries added are the defaults for keys of listed images. *)
Theorem imagesEffect_maps (s : Session) :
  let s' := imagesEffect s in
  images s' = images s
  /\ (forall k, listed (images s) k ->
        is_Some (selected s' !! k) /\ is_Some (imgFeedback s' !! k))
  /\ (forall k, listed (images s) k ->
        (forall v, selected s !! k = Some v -> selected s' !! k = Some v)
        /\ (forall v, imgFeedback s !! k = Some v -> imgFeedback s' !! k = Some v))
  /\ (images s = [] -> selected s' = ∅ /\ imgFeedback s' = ∅)
  /\ (images s ≠ [] ->
        (forall k v, selected s !! k = Some v -> selected s' !! k = Some v)
        /\ (forall k v, imgFeedback s !! k = Some v -> imgFeedback s' !! k = Some v)
        /\ (forall k v, selected s !! k = None -> selected s' !! k = Some v ->
              v = false /\ listed (images s) k)
        /\ (forall k v, imgFeedback s !! k = None -> imgFeedback s' !! k = Some v ->
              v = [] /\ listed (images s) k)).
Proof.
  unfold imagesEffect. destruct (images s) as [|a r] eqn:E; simpl.
  - rewrite E. split; [reflexivity|]. split; [|split; [|split]].
    + intros k (i & src & Hi & _). inversion Hi.
    + intros k (i & src & Hi & _). inversion Hi.
    + intros _. split; reflexivity.
    + intros Hne. contradiction.
  - rewrite E. split; [reflexivity|]. split; [|split; [|split]].
    + intros k (i & src & Hi & ->). split.
      * apply (init_missing_covers false (a :: r) 0 i _ src Hi).
      * apply (init_missing_covers [] (a :: r) 0 i _ src Hi).
    + intros k _. split; intros v Hv.
      * apply (init_missing_keeps false (a :: r) 0 _ k v Hv).
      * apply (init_missing_keeps [] (a :: r) 0 _ k v Hv).
    + intros Hnil. discriminate.
    + intros _. split; [|split; [|split]].
      * intros k v Hv. apply (init_missing_keeps false (a :: r) 0 _ k v Hv).
      * intros k v Hv. apply (init_missing_keeps [] (a :: r) 0 _ k v Hv).
      * intros k v Hn Hv.
        apply (init_missing_origin false (a :: r) 0) in Hv as [Hv|(_ & -> & j & src & Hj & ->)];
          [congruence|]. split; [reflexivity|]. exists j, src. split; [exact Hj|reflexivity].
      * intros k v Hn Hv.
        apply (init_missing_origin [] (a :: r) 0) in Hv as [Hv|(_ & -> & j & src & Hj & ->)];
          [congruence|]. split; [reflexivity|]. exists j, src. split; [exact Hj|reflexivity].
Qed.

Lemma imagesEffect_maps_witness :
  let s := setSelected {[ imgKey (lit "a") 0 := true ]} (setImages [lit "a"; lit "b"] initialSession) in
  selected (imagesEffect s) !! imgKey (lit "a") 0 = Some true
  /\ is_Some (selected (imagesEffect s) !! imgKey (lit "b") 1).
Proof.
  intros s.
  destruct (imagesEffect_maps s) as (_ & Hall & Hkeep & _ & _).
  split.
  - apply (Hkeep (imgKey (lit "a") 0)).
    + exists 0, (lit "a"). split; reflexivity.
    + apply lookup_singleton_eq.
  - apply (Hall (imgKey (lit "b") 1)). exists 1, (lit "b"). split; reflexivity.
Defined.

(** The claim C3 as written fails: an entry of an image that is no longer
    listed survives a change to a non-empty list. *)
Lemma imagesEffect_keeps_unlisted :
  let s1 := imagesEffect (setImages [lit "a"] initialSession) in
  let s2 := imagesEffect (setImages [lit "b"] s1) in
  images s2 = [lit "b"]
  /\ is_Some (selected s2 !! imgKey (lit "a") 0)
  /\ is_Some (imgFeedback s2 !! imgKey (lit "a") 0)
  /\ ~ listed (images s2) (imgKey (lit "a") 0).
Proof.
  intros s1 s2. split; [reflexivity|]. split; [|split].
  - exists false. apply init_missing_keeps. apply lookup_insert_eq.
  - exists []. apply init_missing_keeps. apply lookup_insert_eq.
  - intros (i & src & Hi & Hk). simpl in Hi.
    destruct i as [|i]; [|destruct i; inversion Hi].
    injection Hi as <-. vm_compute in Hk. discriminate.
Qed.

(** ** Outgoing selections *)

Lemma selections_elem (imgs : list jsstring) (sel : gmap jsstring bool)
    (fb : gmap jsstring jsstring) (e : Selection) :
  e ∈ selections imgs sel fb <->
  exists i src, imgs !! i = Some src /\ sel !! imgKey src i = Some true
                /\ e = selection_at sel fb i src.
Proof.
  unfold selections. rewrite list_elem_of_omap. split.
  - intros (o & Ho & Hid). apply elem_of_lookup_imap in Ho as (i & src & -> & Hi).
    exists i, src. split; [exact Hi|]. simpl in Hid.
    destruct (sel !! imgKey src i) as [[]|]; simpl in Hid; try discriminate.
    injection Hid as <-. split; reflexivity.
  - intros (i & src & Hi & Hsel & ->).
    eexists. split; [apply (elem_of_lookup_imap_2 _ _ _ i Hi)|].
    simpl. rewrite Hsel. reflexivity.
Qed.

Lemma picked_sorted (g : nat -> jsstring -> option Selection) (n : nat)
    (imgs : list jsstring) :
  (forall i src e, g i src = Some e -> index e = n + i) ->
  Forall (fun e => n <= index e) (omap id (imap g imgs))
  /\ StronglySorted (fun a b => index a < index b) (omap id (imap g imgs)).
Proof.
  revert g n. induction imgs as [|src r IH]; intros g n Hg.
  - split; constructor.
  - rewrite imap_cons. simpl.
    destruct (IH (g ∘ S) (S n)) as [Hall Hsorted].
    { intros i s e He. rewrite (Hg (S i) s e He). lia. }
    destruct (g 0 src) as [e|] eqn:E; simpl.
    + pose proof (Hg 0 src e E) as He. split.
      * constructor; [lia|]. eapply Forall_impl; [exact Hall|]. simpl. intros; lia.
      * constructor; [exact Hsorted|].
        eapply Forall_impl; [exact Hall|]. simpl. intros; lia.
    + split; [|exact Hsorted].
      eapply Forall_impl; [exact Hall|]. simpl. intros; lia.
Qed.

Lemma selections_sorted (imgs : list jsstring) (sel : gmap jsstring bool)
    (fb : gmap jsstring jsstring) :
  StronglySorted (fun a b => index a < index b) (selections imgs sel fb).
Proof.
  unfold selections. apply (picked_sorted _ 0).
  intros i src e. simpl.
  destruct (negb _); [discriminate|]. intros [= <-]. reflexivity.
Qed.

Section Selections.
Context `{Platform}.

(** C6: the [selections] array is computed from the current image list
    in order: it has one entry [{image, feedback, index}] for each image
    whose selection flag is true and none for the others, the feedback
    trimmed and the index the position of the image; with three images
    of which only the one at index 1 is selected it is the single entry
    of index 1.  It is the array Results-submit and Finals-request put
    into their request. *)
Theorem selections_sent (imgs : list jsstring) (sel : gmap jsstring bool)
    (fb : gmap jsstring jsstring) :
  (forall e, e ∈ selections imgs sel fb <->
     exists i src, imgs !! i = Some src /\ sel !! imgKey src i = Some true
       /\ e = {| image := src; feedback := trim (default [] (fb !! imgKey src i));
                 index := i |})
  /\ StronglySorted (fun a b => index a < index b) (selections imgs sel fb)
  /\ (forall a b c,
        imgs = [a; b; c] ->
        sel !! imgKey a 0 ≠ Some true -> sel !! imgKey b 1 = Some true ->
        sel !! imgKey c 2 ≠ Some true ->
        selections imgs sel fb
        = [ {| image := b; feedback := trim (default [] (fb !! imgKey b 1)); index := 1 |} ])
  /\ (forall snap st,
        images snap = imgs -> selected snap = sel -> imgFeedback snap = fb ->
        nonempty (resumeUrl snap) = true -> selections imgs sel fb ≠ [] ->
        requests_of (run (sendSelectedImagesBack snap st) []) = [selections_request snap]
        /\ requests_of (run (sendImagesForFinals snap st) []) = [selections_request snap]).
Proof.
  split; [|split; [|split]].
  - intros e. apply selections_elem.
  - apply selections_sorted.
  - intros a b c -> Ha Hb Hc. unfold selections. simpl.
    rewrite Hb. simpl.
    destruct (sel !! imgKey a 0) as [[]|]; [congruence| |];
      (destruct (sel !! imgKey c 2) as [[]|]; [congruence| |]); reflexivity.
  - intros snap st <- <- <- Hurl Hne.
    unfold sendSelectedImagesBack, sendImagesForFinals, selections_request.
    rewrite Hurl. simpl.
    destruct (selections (images snap) (selected snap) (imgFeedback snap)) eqn:E;
      [congruence|].
    split; reflexivity.
Qed.

End Selections.

Lemma selections_sent_witness :
  let snap :=
    setImgFeedback {[ imgKey (lit "b") 1 := lit "  brighter " ]}
      (setSelected {[ imgKey (lit "b") 1 := true ]}
         (setImages [lit "a"; lit "b"; lit "c"]
            (setResumeUrl (lit "/webhook-wait/1") initialSession))) in
  selections (images snap) (selected snap) (imgFeedback snap)
  = [ {| image := lit "b"; feedback := lit "brighter"; index := 1 |} ]
  /\ requests_of (run (@sendSelectedImagesBack Reference.platform snap snap) [])
     = [@selections_request Reference.platform snap].
Proof.
  intros snap.
  destruct (@selections_sent Reference.platform (images snap) (selected snap)
              (imgFeedback snap)) as (_ & _ & Hthree & Hsent).
  assert (Hsel : selections (images snap) (selected snap) (imgFeedback snap)
                 = [ {| image := lit "b"; feedback := lit "brighter"; index := 1 |} ]).
  { rewrite (Hthree (lit "a") (lit "b") (lit "c")).
    - vm_compute. reflexivity.
    - reflexivity.
    - vm_compute. discriminate.
    - vm_compute. reflexivity.
    - vm_compute. discriminate. }
  split; [exact Hsel|].
  apply (Hsent snap snap); try reflexivity.
  rewrite Hsel. discriminate.
Defined.

(** ** Running a handler *)

Lemma mbind_unfold {A B} (m : M A) (k : A -> M B) (st : Session) :
  (m ≫= k) st = bindR (m st) k.
Proof. reflexivity. Qed.

Lemma bindR_modify {B} (f : Session -> Session) (k : unit -> M B) (st : Session) :
  bindR (modify f st) k = k tt (f st).
Proof. reflexivity. Qed.

Lemma bindR_when {B} (b : bool) (f : Session -> Session) (k : unit -> M B)
    (st : Session) :
  bindR (when b (modify f) st) k = k tt (if b then f st else st).
Proof. destruct b; reflexivity. Qed.

Lemma run_modify (f : Session -> Session) (st : Session) (os : list FetchOutcome) :
  run (modify f st) os = ([], f st, true).
Proof. reflexivity. Qed.

Lemma run_when (b : bool) (f : Session -> Session) (st : Session)
    (os : list FetchOutcome) :
  run (when b (modify f) st) os = ([], if b then f st else st, true).
Proof. destruct b; reflexivity. Qed.


Ltac exec :=
  repeat first
    [ rewrite mbind_unfold
    | rewrite bindR_modify
    | rewrite bindR_when
    | rewrite run_modify
    | rewrite run_when
    | progress (unfold adoptResumeUrl, fetch, mret, M_ret)
    | progress (cbn -[Nat.ltb Nat.leb]) ].

(** Decide the test of the conditional at the head of a handler. *)
Ltac branch :=
  match goal with
  | |- context [run (if ?b then _ else _) _] => destruct b eqn:?
  | |- context [run ((if ?b then _ else _) _) _] => destruct b eqn:?
  | |- context [run (bindR ((if ?b then _ else _) _) _) _] => destruct b eqn:?
  end.

Lemma length_pos_nonnil {A} (l : list A) : (0 <? length l) = true <-> l ≠ [].
Proof.
  destruct l; simpl; split; try congruence; try discriminate. intros _. reflexivity.
Qed.


(** A [finally] clause that only calls a setter changes neither the
    requests of a handler nor whether it ends. *)
Lemma run_finally {A} (r : Res A) (g : Session -> Session) (os : list FetchOutcome) :
  run (bindR r (fun _ => modify g)) os
  = (requests_of (run r os),
     if (run r os).2 then g (state_of (run r os)) else state_of (run r os),
     (run r os).2).
Proof.
  revert os. induction r as [a st|st rq k IH]; intros os; simpl; [reflexivity|].
  destruct os as [|o os]; simpl; [reflexivity|].
  rewrite IH. destruct (run (k o st) os) as [[rqs st'] fin]. reflexivity.
Qed.

(** ** Review submission and the polling fallback *)

Section ReviewSubmit.
Context `{Platform}.



End ReviewSubmit.


(** ** The Finals request *)

Section Finals.
Context `{Platform}.

(** C7: when the body of a successful Finals response parses neither as
    a whole nor in its embedded part, [finalStatus] becomes [Error]; the
    message is the remediation guidance when the body contains
    [Workflow was started] in any letter case, and the generic
    parse-failure message otherwise. *)
Theorem finals_unparseable (snap st : Session) (res : Response)
    (more : list FetchOutcome) :
  nonempty (resumeUrl snap) = true ->
  selections (images snap) (selected snap) (imgFeedback snap) ≠ [] ->
  resp_ok res = true ->
  JSON_parse (resp_body res) = None ->
  (forall t, embedded_json (resp_body res) = Some t -> JSON_parse t = None) ->
  let out := run (sendImagesForFinals snap st) (Responded res :: more) in
  finalStatus (state_of out) = Error
  /\ (includes_ci (resp_body res) (lit "Workflow was started") = true ->
        finalMessage (state_of out) = workflow_was_started_guidance)
  /\ (includes_ci (resp_body res) (lit "Workflow was started") = false ->
        finalMessage (state_of out) = could_not_parse).
Proof.
  intros Hurl Hsel Hok Hparse Hemb out. subst out.
  unfold sendImagesForFinals. rewrite Hurl.
  destruct (selections (images snap) (selected snap) (imgFeedback snap)) as [|e sels];
    [congruence|].
  exec. rewrite Hok. exec.
  assert (Hdata : parse_finals (resp_body res) = VNull).
  { unfold parse_finals. rewrite Hparse.
    destruct (embedded_json (resp_body res)) as [t|] eqn:E; [|reflexivity].
    rewrite (Hemb t eq_refl). reflexivity. }
  rewrite Hdata. exec.
  destruct (includes_ci (resp_body res) (lit "Workflow was started")); exec;
    repeat split; congruence.
Qed.

(** The candidates after [videos] are never consulted: the list read
    from [videos] is an array, and an array is truthy. *)
Lemma videos_of_first (root : Value) : videos_of root = pickList (get root "videos").
Proof. reflexivity. Qed.

End Finals.

Lemma finals_unparseable_witness :
  let snap :=
    setSelected {[ imgKey (lit "a") 0 := true ]}
      (setImages [lit "a"] (setResumeUrl (lit "/webhook-wait/1") initialSession)) in
  let started := {| status_code := 200; resp_body := lit "Workflow was started" |} in
  finalStatus (state_of (run (@sendImagesForFinals Reference.platform snap snap)
                           [Responded started])) = Error
  /\ finalMessage (state_of (run (@sendImagesForFinals Reference.platform snap snap)
                               [Responded started])) = workflow_was_started_guidance.
Proof.
  intros snap started.
  assert (Hsel : selections (images snap) (selected snap) (imgFeedback snap) ≠ []).
  { vm_compute. discriminate. }
  destruct (@finals_unparseable Reference.platform snap snap started []
              eq_refl Hsel eq_refl eq_refl) as (Hst & Hmsg & _).
  - intros t Ht. vm_compute in Ht. discriminate.
  - split; [exact Hst|]. apply Hmsg. vm_compute. reflexivity.
Defined.

(** C2 at the input the code gets wrong: a Finals response that carries
    its list under [media] only.  The list read from the absent [videos]
    member is the empty array, which ends the chain of alternatives, so no
    video is found and the Finals step stays pending; when [videos] is
    present it wins over [media]. *)
Theorem videos_of_media_only :
  let snap :=
    setSelected {[ imgKey (lit "a") 0 := true ]}
      (setImages [lit "a"] (setResumeUrl (lit "/webhook-wait/1") initialSession)) in
  let media_only := {| status_code := 200; resp_body := quoted "{'media':['y']}" |} in
  let out := run (@sendImagesForFinals Reference.platform snap snap) [Responded media_only] in
  @videos_of Reference.platform (VObj [(lit "media", VArr [VStr (lit "y")])]) = []
  /\ @videos_of Reference.platform
       (VObj [(lit "videos", VArr [VStr (lit "x")]); (lit "media", VArr [VStr (lit "y")])])
     = [lit "x"]
  /\ finalVideos (state_of out) = []
  /\ finalStatus (state_of out) = Pending.
Proof. vm_compute. repeat split. Qed.

(** ** List-wrapped responses *)

Lemma resp_ok_body (code : nat) (b1 b2 : jsstring) :
  resp_ok {| status_code := code; resp_body := b1 |}
  = resp_ok {| status_code := code; resp_body := b2 |}.
Proof. reflexivity. Qed.

Section Wrapping.
Context `{Platform}.
Variables (o : list (jsstring * Value)) (wrapped unwrapped : jsstring).
Hypothesis parse_wrapped : JSON_parse wrapped = Some (VArr [VObj o]).
Hypothesis parse_unwrapped : JSON_parse unwrapped = Some (VObj o).

Lemma parse_or_text_wrapped : parse_or_text wrapped = VArr [VObj o].
Proof. unfold parse_or_text. rewrite parse_wrapped. reflexivity. Qed.

Lemma parse_or_text_unwrapped : parse_or_text unwrapped = VObj o.
Proof. unfold parse_or_text. rewrite parse_unwrapped. reflexivity. Qed.

Lemma parse_finals_wrapped : parse_finals wrapped = VArr [VObj o].
Proof. unfold parse_finals. rewrite parse_wrapped. reflexivity. Qed.

Lemma parse_finals_unwrapped : parse_finals unwrapped = VObj o.
Proof. unfold parse_finals. rewrite parse_unwrapped. reflexivity. Qed.

(** C4, as the handlers have it: a successful response whose body is a
    one-element list wrapping an object leads to the same requests and
    the same state as the response with the object itself, in the
    Review fetch, the Review submission, the Results submission and the
    Finals request, and in the Compose submission when the object
    carries deliverables.  In the Results refresh this holds when the
    object has no [status] member. *)
Theorem wrapped_as_unwrapped (code : nat) (snap st : Session)
    (more : list FetchOutcome) :
  resp_ok {| status_code := code; resp_body := wrapped |} = true ->
  let w := Responded {| status_code := code; resp_body := wrapped |} in
  let u := Responded {| status_code := code; resp_body := unwrapped |} in
  run (fetchReview snap st) (w :: more) = run (fetchReview snap st) (u :: more)
  /\ run (sendBackToN8n snap st) (w :: more) = run (sendBackToN8n snap st) (u :: more)
  /\ run (sendSelectedImagesBack snap st) (w :: more)
     = run (sendSelectedImagesBack snap st) (u :: more)
  /\ run (sendImagesForFinals snap st) (w :: more)
     = run (sendImagesForFinals snap st) (u :: more)
  /\ (truthy (get (VObj o) "DELIVERABLES") = true ->
        run (submitCompose snap st) (w :: more) = run (submitCompose snap st) (u :: more))
  /\ (has_key "status" (VObj o) = false ->
        run (fetchResults snap st) (w :: more) = run (fetchResults snap st) (u :: more)).
Proof.
  intros Hok w u.
  assert (Hok' : resp_ok {| status_code := code; resp_body := unwrapped |} = true)
    by (rewrite <- Hok; apply resp_ok_body).
  subst w u.
  split; [|split; [|split; [|split; [|split]]]].
  - unfold fetchReview. destruct (negb (nonempty (resumeUrl snap))); [reflexivity|].
    exec. rewrite Hok, Hok'. exec.
    rewrite parse_or_text_wrapped, parse_or_text_unwrapped. reflexivity.
  - unfold sendBackToN8n. destruct (negb (nonempty (resumeUrl snap))); [reflexivity|].
    destruct (isSubmittingReview snap); [reflexivity|].
    exec. rewrite Hok, Hok'. exec.
    rewrite parse_or_text_wrapped, parse_or_text_unwrapped. reflexivity.
  - unfold sendSelectedImagesBack.
    destruct (negb (nonempty (resumeUrl snap))); [reflexivity|].
    destruct (length _ =? 0); [reflexivity|].
    exec. rewrite Hok, Hok'. exec.
    rewrite parse_or_text_wrapped, parse_or_text_unwrapped. reflexivity.
  - unfold sendImagesForFinals.
    destruct (negb (nonempty (resumeUrl snap))); [reflexivity|].
    destruct (length _ =? 0); [reflexivity|].
    exec. rewrite Hok, Hok'. exec.
    rewrite parse_finals_wrapped, parse_finals_unwrapped. reflexivity.
  - intros Hdel. unfold submitCompose.
    destruct (negb (nonempty (resumeUrl snap))); [reflexivity|].
    exec. rewrite Hok, Hok'. exec.
    rewrite parse_wrapped, parse_unwrapped. cbn -[get]. rewrite Hdel. reflexivity.
  - intros Hst. unfold fetchResults.
    destruct (negb (nonempty (resumeUrl snap))); [reflexivity|].
    exec. rewrite Hok, Hok'. exec.
    rewrite parse_or_text_wrapped, parse_or_text_unwrapped.
    rewrite Hst. reflexivity.
Qed.

End Wrapping.

Lemma wrapped_as_unwrapped_witness :
  let snap := setResumeUrl (lit "/webhook-wait/1") initialSession in
  let w := Responded {| status_code := 200; resp_body := quoted "[{'images':['a.png']}]" |} in
  let u := Responded {| status_code := 200; resp_body := quoted "{'images':['a.png']}" |} in
  run (@sendBackToN8n Reference.platform snap snap) [w]
  = run (@sendBackToN8n Reference.platform snap snap) [u]
  /\ run (@fetchResults Reference.platform snap snap) [w]
     = run (@fetchResults Reference.platform snap snap) [u].
Proof.
  intros snap w u.
  destruct (@wrapped_as_unwrapped Reference.platform
              [(lit "images", VArr [VStr (lit "a.png")])]
              (quoted "[{'images':['a.png']}]") (quoted "{'images':['a.png']}")
              eq_refl eq_refl 200 snap snap [] eq_refl) as (_ & Hsub & _ & _ & _ & Hpoll).
  split; [exact Hsub|]. apply Hpoll. reflexivity.
Defined.

(** The claim C4 as written fails in the Results refresh: the wrapped
    status-bearing object is read through its [ok] member, its [status]
    is not looked at, and the step stays pending where the unwrapped
    object completes it. *)
Lemma fetchResults_wrapped_status_ignored :
  let snap := setResumeUrl (lit "/webhook-wait/1") initialSession in
  let w := Responded {| status_code := 200; resp_body := quoted "[{'status':'done'}]" |} in
  let u := Responded {| status_code := 200; resp_body := quoted "{'status':'done'}" |} in
  status (state_of (run (@fetchResults Reference.platform snap snap) [w])) = Pending
  /\ status (state_of (run (@fetchResults Reference.platform snap snap) [u])) = Done.
Proof. vm_compute. split; reflexivity. Qed.

(** ** Placeholder addresses *)

(** C1 at the inputs the code gets wrong: a response whose [resumeUrl] is
    the placeholder of the engine.  The Finals request rejects it and
    keeps the stored address; the six other handlers store it. *)
Theorem placeholder_stored_outside_finals :
  let snap :=
    setSelected {[ imgKey (lit "a") 0 := true ]}
      (setImages [lit "a"] (setResumeUrl (lit "/webhook-wait/1") initialSession)) in
  let placeholder := lit "[filled at execution time]" in
  let wrapped :=
    Responded {| status_code := 200;
                 resp_body := quoted "[{'resumeUrl':'[filled at execution time]'}]" |} in
  let plain :=
    Responded {| status_code := 200;
                 resp_body := quoted "{'resumeUrl':'[filled at execution time]'}" |} in
  let review :=
    Responded {| status_code := 200;
                 resp_body := quoted "{'resumeUrl':'[filled at execution time]','DELIVERABLES':[]}" |} in
  let stored (h : Session -> M unit) (reply : FetchOutcome) :=
    resumeUrl (state_of (run (h snap snap) [reply])) in
  @is_placeholder placeholder = true
  /\ stored (@sendImagesForFinals Reference.platform) wrapped = lit "/webhook-wait/1"
  /\ stored (@sendImagesForFinals Reference.platform) plain = lit "/webhook-wait/1"
  /\ stored (@sendBackToN8n Reference.platform) wrapped = placeholder
  /\ stored (@sendSelectedImagesBack Reference.platform) wrapped = placeholder
  /\ stored (@fetchResults Reference.platform) wrapped = placeholder
  /\ stored (@fetchReview Reference.platform) review = placeholder
  /\ stored (@submitCompose Reference.platform) plain = placeholder
  /\ stored (@submitUploadStyle Reference.platform) plain = placeholder.
Proof. vm_compute. repeat split. Qed.

Section Addresses.
Context `{Platform}.

(** What the Finals request does with the address of a response: it is
    stored when it begins like an address and is no placeholder, and the
    stored address is kept otherwise. *)
Lemma finals_address (snap st : Session) (res : Response) (more : list FetchOutcome) :
  nonempty (resumeUrl snap) = true ->
  selections (images snap) (selected snap) (imgFeedback snap) ≠ [] ->
  resp_ok res = true ->
  truthy (parse_finals (resp_body res)) = true ->
  let data := parse_finals (resp_body res) in
  let root := if isArray data then nullish_or (first_elem data) (VObj []) else data in
  let supplied := ToString (js_or (get root "resumeUrl") (VStr [])) in
  resumeUrl (state_of (run (sendImagesForFinals snap st) (Responded res :: more)))
  = if address_shaped supplied && negb (is_placeholder supplied) then supplied
    else resumeUrl st.
Proof.
  intros Hurl Hsel Hok Hdata data root supplied.
  unfold sendImagesForFinals. rewrite Hurl.
  destruct (selections (images snap) (selected snap) (imgFeedback snap)) as [|e sels];
    [congruence|].
  exec. rewrite Hok. exec. rewrite Hdata. exec.
  fold data. fold root. fold supplied.
  destruct (address_shaped supplied && negb (is_placeholder supplied));
    repeat (branch; exec); reflexivity.
Qed.

(** What the Review submission does with it: any truthy value is
    stored. *)
Lemma review_submit_address (snap st : Session) (res : Response) :
  nonempty (resumeUrl snap) = true ->
  isSubmittingReview snap = false ->
  resp_ok res = true ->
  let root := root_of (parse_or_text (resp_body res)) in
  resumeUrl (state_of (run (sendBackToN8n snap st) [Responded res]))
  = if truthy (get root "resumeUrl") then ToString (get root "resumeUrl")
    else resumeUrl st.
Proof.
  intros Hurl Hbusy Hok root.
  unfold sendBackToN8n. rewrite Hurl, Hbusy. exec. rewrite Hok. exec.
  fold root. rewrite run_finally.
  assert (Hadopt : resumeUrl (adopt root (setMessage (VStr []) (setIsSubmittingReview true st)))
                   = if truthy (get root "resumeUrl") then ToString (get root "resumeUrl")
                     else resumeUrl st).
  { unfold adopt. destruct (truthy _); reflexivity. }
  rewrite <- Hadopt.
  repeat (branch; exec); try reflexivity;
    try (destruct (truthy (js_or _ _)); reflexivity).
  unfold fetchResults. rewrite Hurl. exec. reflexivity.
Qed.

End Addresses.

(** ** The embedding on the examples of the specification *)

Example split_commas_example :
  split_commas (lit "a, b ,c") = [lit "a"; lit "b"; lit "c"]
  /\ split_commas (lit " ,a , , b,") = [[]; lit "a"; []; lit "b"; []]
  /\ split_commas [] = [[]].
Proof. vm_compute. repeat split. Qed.

Example normalizeImages_encoded_list :
  @normalizeImages Reference.platform (VStr (quoted "['a','b']")) = [lit "a"; lit "b"]
  /\ @normalizeImages Reference.platform (VArr [VStr (lit "a"); VStr (lit "b")])
     = [lit "a"; lit "b"].
Proof. vm_compute. split; reflexivity. Qed.

Example normalizeImages_comma_fallback :
  @normalizeImages Reference.platform (VStr (lit "a, b ,c")) = [lit "a"; lit "b"; lit "c"]
  /\ @normalizeImages Reference.platform (VStr (quoted "['a', b]")) = [lit "a"; lit "b"].
Proof. vm_compute. split; reflexivity. Qed.

Example results_refresh_pending :
  let snap := setResumeUrl (lit "/webhook-wait/1") initialSession in
  let out := run (@fetchResults Reference.platform snap snap)
               [Responded {| status_code := 200; resp_body := quoted "{'status':'pending'}" |}] in
  status (state_of out) = Pending /\ message (state_of out) = VStr waiting_for_images.
Proof. vm_compute. split; reflexivity. Qed.

Example compose_with_deliverables :
  let snap := setResumeUrl (lit "/webhook-wait/1") initialSession in
  let out := run (@submitCompose Reference.platform snap snap)
               [Responded {| status_code := 200;
                             resp_body := quoted "{'DELIVERABLES':[{'Scene Description':'x'}],'resumeUrl':'/w/2'}" |}] in
  length (requests_of out) = 1 /\ out.2 = true
  /\ activeTab (state_of out) = TabReview
  /\ resumeUrl (state_of out) = lit "/w/2"
  /\ (deliverables (state_of out) !! 0) ≫= (fun d => d !! lit "Scene Description")
     = Some (lit "x").
Proof. vm_compute. repeat split. Qed.

Example compose_without_deliverables :
  let snap := setResumeUrl (lit "/webhook-wait/1") initialSession in
  let out := run (@submitCompose Reference.platform snap snap)
               [Responded {| status_code := 200; resp_body := quoted "{'resumeUrl':'/w/2'}" |}] in
  requests_of out
  = [ {| url := lit "/api/webhook-wait/1"; method := POST;
         body := FormBody [TextEntry (lit "prompt") []] |};
      {| url := lit "/api/webhook-wait/1"; method := GET; body := NoBody |} ]
  /\ out.2 = false
  /\ isComposing (state_of out) = false
  /\ isSubmittingReview (state_of out) = true.
Proof. vm_compute. repeat split. Qed.

Example finals_done :
  let snap :=
    setSelected {[ imgKey (lit "a") 0 := true ]}
      (setImages [lit "a"] (setResumeUrl (lit "/webhook-wait/1") initialSession)) in
  let out := run (@sendImagesForFinals Reference.platform snap snap)
               [Responded {| status_code := 200;
                             resp_body := quoted "log: [{'videos':'v1.mp4, v2.mp4','resumeUrl':'https://n8n.example/webhook-wait/9'}] end" |}] in
  finalVideos (state_of out) = [lit "v1.mp4"; lit "v2.mp4"]
  /\ finalStatus (state_of out) = Done
  /\ finalMessage (state_of out) = lit "Received 2 video(s)."
  /\ resumeUrl (state_of out) = lit "https://n8n.example/webhook-wait/9"
  /\ activeTab (state_of out) = TabFinals.
Proof. vm_compute. repeat split. Qed.

(** * Further properties of the code *)

(** ** Resolver and proxy *)

Lemma startsWith_app (p s : jsstring) : startsWith (p ++ s) p = true.
Proof.
  induction p as [|a p IH]; simpl; [destruct s; reflexivity|].
  rewrite N.eqb_refl. exact IH.
Qed.

Lemma startsWith_split (s p : jsstring) :
  startsWith s p = true -> s = p ++ drop (length p) s.
Proof.
  revert s. induction p as [|a p IH]; intros s Hs; [reflexivity|].
  destruct s as [|b s]; [discriminate|]. simpl in Hs.
  apply andb_true_iff in Hs as [Hab Hs]. apply N.eqb_eq in Hab as ->.
  simpl. f_equal. apply IH. exact Hs.
Qed.

Lemma reference_rejects_slash (y : jsstring) :
  startsWith y (lit "/") = true -> Reference.parse_url y = None.
Proof.
  destruct y as [|c y]; [discriminate|]. intros Hc.
  apply andb_true_iff in Hc as [Hc _]. apply N.eqb_eq in Hc as <-. reflexivity.
Qed.

Section ResolverMore.
Context `{Platform}.

Lemma toProxied_has_prefix (x : jsstring) :
  startsWith (toProxied x) (lit "/api") = true.
Proof.
  unfold toProxied. destruct (URL_parse x) as [u|].
  - apply (startsWith_app (lit "/api")).
  - destruct (startsWith x (lit "/api")) eqn:E; [exact E|].
    apply (startsWith_app (lit "/api")).
Qed.

(** Every address the resolver returns lies under the local prefix, so
    every request of a handler goes through the proxy. *)
Theorem toProxied_under_prefix (x : jsstring) :
  startsWith (toProxied x) (lit "/api") = true.
Proof. exact (toProxied_has_prefix x). Qed.

(** The resolver is idempotent on every input, as long as the [URL]
    constructor rejects a text that begins with a slash (which it does
    when it is given no base). *)
Theorem toProxied_idempotent_everywhere (x : jsstring) :
  (forall y, startsWith y (lit "/") = true -> URL_parse y = None) ->
  toProxied (toProxied x) = toProxied x.
Proof.
  intros Hrel.
  assert (Hpre := toProxied_has_prefix x).
  assert (Hslash : startsWith (toProxied x) (lit "/") = true).
  { apply startsWith_split in Hpre. rewrite Hpre. reflexivity. }
  unfold toProxied at 1. rewrite (Hrel _ Hslash), Hpre. reflexivity.
Qed.

(** What the engine receives once the proxy has stripped the prefix: the
    path and query of an absolute address, a relative address as it is
    when it begins with a slash, and with a slash put in front when it
    does not. *)
Theorem proxy_rewrite_toProxied (x : jsstring) :
  (forall u, URL_parse x = Some u -> proxy_rewrite (toProxied x) = pathname u ++ search u)
  /\ (URL_parse x = None -> startsWith x (lit "/api") = false ->
      proxy_rewrite (toProxied x) = if startsWith x (lit "/") then x else lit "/" ++ x)
  /\ (URL_parse x = None -> startsWith x (lit "/api") = true ->
      proxy_rewrite (toProxied x) = drop 4 x).
Proof.
  unfold proxy_rewrite. rewrite toProxied_has_prefix.
  split; [|split].
  - intros u Hu. unfold toProxied. rewrite Hu. reflexivity.
  - intros Hrel Hpre. unfold toProxied. rewrite Hrel, Hpre.
    destruct (startsWith x (lit "/")); reflexivity.
  - intros Hrel Hpre. unfold toProxied. rewrite Hrel, Hpre. reflexivity.
Qed.

End ResolverMore.

Lemma toProxied_idempotent_everywhere_witness :
  @toProxied Reference.platform
    (@toProxied Reference.platform (lit "https://n8n.example/webhook-wait/5?a=b"))
  = @toProxied Reference.platform (lit "https://n8n.example/webhook-wait/5?a=b").
Proof.
  apply (@toProxied_idempotent_everywhere Reference.platform).
  exact reference_rejects_slash.
Defined.

Lemma proxy_rewrite_toProxied_witness :
  proxy_rewrite (@toProxied Reference.platform (lit "https://n8n.example/webhook-wait/5?a=b"))
  = lit "/webhook-wait/5" ++ lit "?a=b"
  /\ proxy_rewrite (@toProxied Reference.platform (lit "webhook-wait/5")) = lit "/webhook-wait/5"
  /\ proxy_rewrite (@toProxied Reference.platform (lit "/api/webhook-wait/5")) = lit "/webhook-wait/5".
Proof.
  split; [|split].
  - apply (proj1 (@proxy_rewrite_toProxied Reference.platform
                    (lit "https://n8n.example/webhook-wait/5?a=b"))
             {| pathname := lit "/webhook-wait/5"; search := lit "?a=b" |}).
    reflexivity.
  - apply (proj1 (proj2 (@proxy_rewrite_toProxied Reference.platform (lit "webhook-wait/5"))));
      reflexivity.
  - apply (proj2 (proj2 (@proxy_rewrite_toProxied Reference.platform
                           (lit "/api/webhook-wait/5")))); reflexivity.
Defined.

(** ** Splitting and trimming *)

Lemma trim_fixed (s : jsstring) : no_outer_ws s = true -> trim s = s.
Proof.
  unfold no_outer_ws, trim, trimEnd. intros Hs.
  apply andb_true_iff in Hs as [Hh Hl].
  assert (Hstart : trimStart s = s).
  { destruct s as [|c s]; [reflexivity|]. simpl in *.
    destruct (is_ws c); [discriminate|reflexivity]. }
  rewrite Hstart.
  destruct (rev s) as [|c t] eqn:E.
  - simpl. rewrite <- (rev_involutive s), E. reflexivity.
  - simpl. destruct (is_ws c); [discriminate|].
    rewrite <- E. apply rev_involutive.
Qed.

Lemma elem_of_rev (c : N) (s : jsstring) : c ∈ rev s <-> c ∈ s.
Proof. rewrite !list_elem_of_In. symmetry. apply in_rev. Qed.

Lemma sep_len_comma (r : jsstring) : sep_len (44%N :: r) = Some (S (ws_run r)).
Proof. reflexivity. Qed.

Lemma sep_len_none (s : jsstring) : 44%N ∉ s -> sep_len s = None.
Proof.
  intros Hs. unfold sep_len.
  destruct (drop (ws_run s) s) as [|c r] eqn:E; [reflexivity|].
  destruct (N.eqb_spec c 44) as [->|]; [|reflexivity].
  exfalso. apply Hs. rewrite <- (take_drop (ws_run s) s), E.
  apply elem_of_app. right. left.
Qed.

Lemma split_go_plain (cur s : jsstring) :
  44%N ∉ s -> split_go 0 cur s = [rev cur ++ s].
Proof.
  revert cur. induction s as [|c s IH]; intros cur Hs; simpl.
  - rewrite app_nil_r. reflexivity.
  - rewrite (sep_len_none (c :: s) Hs).
    rewrite IH by (intros Hin; apply Hs; right; exact Hin).
    simpl. rewrite <- app_assoc. reflexivity.
Qed.

Lemma split_go_no_comma (skip : nat) (cur s p : jsstring) :
  44%N ∉ cur -> p ∈ split_go skip cur s -> 44%N ∉ p.
Proof.
  revert skip cur. induction s as [|c s IH]; intros skip cur Hcur Hp; simpl in Hp.
  - apply list_elem_of_singleton in Hp as ->. rewrite elem_of_rev. exact Hcur.
  - destruct skip as [|k]; [|exact (IH k cur Hcur Hp)].
    destruct (N.eqb_spec c 44) as [->|Hc].
    + rewrite sep_len_comma in Hp. apply elem_of_cons in Hp as [->|Hp].
      * rewrite elem_of_rev. exact Hcur.
      * apply (IH (ws_run s) []); [apply not_elem_of_nil|exact Hp].
    + assert (Hcur' : 44%N ∉ c :: cur).
      { intros Hin. apply elem_of_cons in Hin as [Heq|Hin]; [congruence|exact (Hcur Hin)]. }
      destruct (sep_len (c :: s)) as [[|k]|].
      * exact (IH 0 (c :: cur) Hcur' Hp).
      * apply elem_of_cons in Hp as [->|Hp].
        -- rewrite elem_of_rev. exact Hcur.
        -- apply (IH k []); [apply not_elem_of_nil|exact Hp].
      * exact (IH 0 (c :: cur) Hcur' Hp).
Qed.

Lemma split_go_nonnil (skip : nat) (cur s : jsstring) : split_go skip cur s ≠ [].
Proof.
  revert skip cur. induction s as [|c s IH]; intros skip cur; simpl; [discriminate|].
  destruct skip; [|apply IH]. destruct (sep_len (c :: s)) as [[|k]|]; try apply IH.
  discriminate.
Qed.

(** [split(/\s*,\s*/)] always yields at least one piece, no piece contains
    a comma, and a text without a comma is its own single piece. *)
Theorem split_commas_pieces (s : jsstring) :
  split_commas s ≠ []
  /\ (forall p, p ∈ split_commas s -> 44%N ∉ p)
  /\ (44%N ∉ s -> split_commas s = [s]).
Proof.
  unfold split_commas. split; [apply split_go_nonnil|]. split.
  - intros p. apply split_go_no_comma. apply not_elem_of_nil.
  - intros Hs. rewrite split_go_plain by exact Hs. reflexivity.
Qed.

Lemma split_commas_pieces_witness :
  split_commas (lit "https://h/a.png") = [lit "https://h/a.png"].
Proof.
  apply (proj2 (proj2 (split_commas_pieces (lit "https://h/a.png")))).
  vm_compute. intros Hin. repeat (apply elem_of_cons in Hin as [Hin|Hin]; [discriminate|]).
  inversion Hin.
Defined.

(** ** More on the image list coercion *)

Lemma strip_leading_other (c : N) (s : jsstring) :
  head s ≠ Some c -> strip_leading c s = s.
Proof.
  destruct s as [|a s]; [reflexivity|]. simpl. intros Hh.
  destruct (N.eqb_spec a c) as [->|]; [exfalso; apply Hh; reflexivity|reflexivity].
Qed.

Lemma strip_trailing_other (c : N) (s : jsstring) :
  head (rev s) ≠ Some c -> strip_trailing c s = s.
Proof.
  intros Hh. unfold strip_trailing. rewrite strip_leading_other by exact Hh.
  apply rev_involutive.
Qed.

Lemma startsWith_one (s : jsstring) (a : N) :
  head s ≠ Some a -> startsWith s [a] = false.
Proof.
  destruct s as [|c s]; [reflexivity|]. intros Hh. cbn [startsWith].
  destruct (N.eqb_spec a c) as [<-|]; [exfalso; apply Hh; reflexivity|reflexivity].
Qed.

Lemma filter_trim_fixed (l : list jsstring) :
  Forall (fun s => s ≠ [] /\ no_outer_ws s = true) l ->
  filter (fun s => s ≠ []) (trim <$> l) = l.
Proof.
  induction 1 as [|s l [Hne Hws] _ IH]; [reflexivity|].
  rewrite fmap_cons, (trim_fixed s Hws), filter_cons_True by exact Hne.
  f_equal. exact IH.
Qed.

Section ImagesMore.
Context `{Platform}.

Lemma normalizeImages_elems (v : Value) :
  Forall (fun s => s ≠ [] /\ no_outer_ws s = true) (normalizeImages v).
Proof.
  apply Forall_forall. intros s. unfold normalizeImages.
  destruct (truthy v); simpl; [|intros Hs; inversion Hs].
  destruct v; try apply trimmed_strings_spec;
    (destruct (startsWith _ _ && endsWith _ _);
     [destruct (JSON_parse _) as [[]|]|]);
    first [apply trimmed_strings_spec | apply fallback_spec].
Qed.


(** A single address without comma, brackets or quotation marks around it
    is read as the list of that one address. *)
Theorem normalizeImages_single (s : jsstring) :
  s ≠ [] -> no_outer_ws s = true -> 44%N ∉ s ->
  head s ≠ Some 91%N -> head s ≠ Some 34%N ->
  head (rev s) ≠ Some 93%N -> head (rev s) ≠ Some 34%N ->
  normalizeImages (VStr s) = [s].
Proof.
  intros Hne Hws Hcomma Hopen Hquote Hclose Hquote'.
  unfold normalizeImages. simpl.
  rewrite bool_decide_eq_false_2 by exact Hne. simpl.
  rewrite (trim_fixed s Hws).
  assert (Hstart : startsWith s (lit "[") = false)
    by exact (startsWith_one s 91 Hopen).
  rewrite Hstart. simpl.
  unfold strip_brackets.
  rewrite (strip_leading_other 91 s Hopen), (strip_trailing_other 93 s Hclose).
  change (split_commas s) with (split_go 0 [] s).
  rewrite (split_go_plain [] s Hcomma). simpl.
  unfold strip_quotes.
  rewrite (strip_leading_other 34 s Hquote), (strip_trailing_other 34 s Hquote').
  rewrite (trim_fixed s Hws), filter_cons_True by exact Hne. reflexivity.
Qed.

(** Normalising a list that is already normal changes nothing. *)
Theorem normalizeImages_stable (v : Value) :
  normalizeImages (VArr (VStr <$> normalizeImages v)) = normalizeImages v.
Proof.
  unfold normalizeImages at 1. simpl. unfold trimmed_strings.
  rewrite <- list_fmap_compose.
  apply (filter_trim_fixed (normalizeImages v)), normalizeImages_elems.
Qed.

(** [pickList] never yields an empty string, and the pieces it cuts out of
    a comma-separated text carry no white space at their ends. *)
Theorem pickList_elems (val : Value) (s : jsstring) :
  s ∈ pickList val ->
  s ≠ []
  /\ (forall t, val = VStr t ->
        (forall arr, JSON_parse t ≠ Some (VArr arr)) -> no_outer_ws s = true).
Proof.
  intros Hs. split.
  - unfold pickList, nonempty_strings in Hs.
    destruct val as [| | | | t |xs|]; try (inversion Hs; fail).
    + destruct (JSON_parse t) as [[]|];
        apply list_elem_of_filter in Hs as [Hne _]; exact Hne.
    + apply list_elem_of_filter in Hs as [Hne _]. exact Hne.
  - intros t -> Hparse. simpl in Hs.
    destruct (JSON_parse t) as [[| | | | |arr|]|]; try (exfalso; exact (Hparse arr eq_refl));
      apply list_elem_of_filter in Hs as [_ Hs];
      apply list_elem_of_fmap in Hs as (p & -> & _); apply trim_no_outer_ws.
Qed.

End ImagesMore.


Lemma normalizeImages_single_witness :
  @normalizeImages Reference.platform (VStr (lit "https://h/a.png")) = [lit "https://h/a.png"].
Proof.
  apply (@normalizeImages_single Reference.platform); try (vm_compute; discriminate).
  - reflexivity.
  - vm_compute. intros Hin.
    repeat (apply elem_of_cons in Hin as [Hin|Hin]; [discriminate|]). inversion Hin.
Defined.

Lemma pickList_elems_witness :
  lit "v1.mp4" ≠ [] /\ no_outer_ws (lit "v1.mp4") = true.
Proof.
  destruct (@pickList_elems Reference.platform (VStr (lit "v1.mp4 , v2.mp4")) (lit "v1.mp4"))
    as [Hne Hws].
  - vm_compute. left.
  - split; [exact Hne|]. apply (Hws (lit "v1.mp4 , v2.mp4") eq_refl).
    intros arr. vm_compute. discriminate.
Defined.

(** ** Image keys *)

Lemma lit_cons (a : ascii) (s : string) : lit (String a s) = N_of_ascii a :: lit s.
Proof. reflexivity. Qed.

Lemma lit_inj (s t : string) : lit s = lit t -> s = t.
Proof.
  revert t. induction s as [|a s IH]; intros [|b t] Heq; try discriminate; [reflexivity|].
  rewrite !lit_cons in Heq. injection Heq as Hab Hst.
  f_equal; [|exact (IH t Hst)].
  rewrite <- (ascii_N_embedding a), <- (ascii_N_embedding b), Hab. reflexivity.
Qed.

Lemma pretty_N_char_no_dash (x : N) : N_of_ascii (pretty_N_char x) ≠ 45%N.
Proof. unfold pretty_N_char. repeat case_match; discriminate. Qed.

Lemma pretty_N_go_no_dash (x : N) (s : string) :
  45%N ∉ lit s -> 45%N ∉ lit (pretty_N_go x s).
Proof.
  revert s. induction (N.lt_wf_0 x) as [x _ IH]; intros s Hs.
  destruct (N.eq_dec x 0%N) as [->|Hx]; [rewrite pretty_N_go_0; exact Hs|].
  rewrite pretty_N_go_step by lia. apply IH.
  - apply N.div_lt; lia.
  - rewrite lit_cons. intros Hin. apply elem_of_cons in Hin as [Heq|Hin].
    + exact (pretty_N_char_no_dash _ (eq_sym Heq)).
    + exact (Hs Hin).
Qed.

Lemma dec_no_dash (n : nat) : 45%N ∉ dec n.
Proof.
  unfold dec, pretty, pretty_nat, pretty, pretty_N.
  case_decide.
  - vm_compute. intros Hin. apply elem_of_cons in Hin as [Hin|Hin]; [discriminate|inversion Hin].
  - apply pretty_N_go_no_dash. apply not_elem_of_nil.
Qed.

Lemma dec_inj (i j : nat) : dec i = dec j -> i = j.
Proof. intros Heq. apply lit_inj in Heq. exact (inj pretty i j Heq). Qed.

Lemma split_at_dash (d1 d2 r1 r2 : jsstring) :
  45%N ∉ d1 -> 45%N ∉ d2 -> d1 ++ 45%N :: r1 = d2 ++ 45%N :: r2 -> d1 = d2 /\ r1 = r2.
Proof.
  revert d2. induction d1 as [|a d1 IH]; intros [|b d2] H1 H2 Heq; simpl in Heq.
  - injection Heq as ->. split; reflexivity.
  - injection Heq as <- _. exfalso. apply H2. left.
  - injection Heq as -> _. exfalso. apply H1. left.
  - injection Heq as -> Heq.
    destruct (IH d2) as [-> ->]; [| |exact Heq|split; reflexivity].
    + intros Hin. apply H1. right. exact Hin.
    + intros Hin. apply H2. right. exact Hin.
Qed.

Lemma imgKey_eq (a b : jsstring) (i j : nat) :
  imgKey a i = imgKey b j -> a = b /\ i = j.
Proof.
  unfold imgKey. intros Heq.
  apply (f_equal (@rev N)) in Heq.
  rewrite !rev_app_distr in Heq. change (lit "-") with [45%N] in Heq.
  simpl in Heq. rewrite <- !app_assoc in Heq. simpl in Heq.
  apply split_at_dash in Heq as [Hd Hr].
  - split.
    + rewrite <- (rev_involutive a), <- (rev_involutive b), Hr. reflexivity.
    + apply dec_inj. rewrite <- (rev_involutive (dec i)), <- (rev_involutive (dec j)), Hd.
      reflexivity.
  - rewrite elem_of_rev. apply dec_no_dash.
  - rewrite elem_of_rev. apply dec_no_dash.
Qed.

(** The key of an image determines the image and its position: two
    entries of an image list never share a key, equal addresses or not. *)
Theorem imgKey_inj (a b : jsstring) (i j : nat) :
  imgKey a i = imgKey b j -> a = b /\ i = j.
Proof. exact (imgKey_eq a b i j). Qed.

Lemma imgKey_inj_witness : lit "a" = lit "a" /\ 3 = 3.
Proof. apply (imgKey_inj (lit "a") (lit "a") 3 3). reflexivity. Defined.

(** The keys given to the rendered images are pairwise distinct, also for
    a list that repeats an address. *)
Theorem render_keys_NoDup (imgs : list jsstring) : NoDup (render_keys imgs).
Proof.
  apply NoDup_alt. intros i j k Hi Hj. unfold render_keys in *.
  rewrite list_lookup_imap in Hi, Hj.
  destruct (imgs !! i) as [a|] eqn:Ea; [|discriminate].
  destruct (imgs !! j) as [b|] eqn:Eb; [|discriminate].
  simpl in Hi, Hj. injection Hi as <-. injection Hj as Hk.
  symmetry in Hk. exact (proj2 (imgKey_eq a b i j Hk)).
Qed.

(** ** The controls of the Results step *)

Lemma selections_NoDup (imgs : list jsstring) (sel : gmap jsstring bool)
    (fb : gmap jsstring jsstring) : NoDup (selections imgs sel fb).
Proof.
  induction (selections_sorted imgs sel fb) as [|e l _ IH Hall]; constructor; [|exact IH].
  intros Hin. rewrite Forall_forall in Hall. specialize (Hall e Hin). lia.
Qed.

(** Ticking the box of a listed image adds the entry of that image to the
    outgoing selections and clearing it removes that entry; the entries of
    the other images are not affected. *)
Theorem checkImage_selections (s : Session) (i : nat) (src : jsstring) (e : Selection) :
  images s !! i = Some src ->
  let k := imgKey src i in
  let sent (s' : Session) := selections (images s') (selected s') (imgFeedback s') in
  (e ∈ sent (checkImage k true s) <-> e ∈ sent s \/ e = selection_at (selected s) (imgFeedback s) i src)
  /\ (e ∈ sent (checkImage k false s) <-> e ∈ sent s /\ index e ≠ i).
Proof.
  intros Hi k sent. subst sent. cbn -[selections]. rewrite !selections_elem. split; split.
  - intros (j & b & Hj & Hsel & ->).
    destruct (decide (k = imgKey b j)) as [Hk|Hk].
    + apply imgKey_eq in Hk as [<- <-]. right. reflexivity.
    + left. rewrite lookup_insert_ne in Hsel by exact Hk.
      exists j, b. repeat split; assumption.
  - intros [(j & b & Hj & Hsel & ->)| ->].
    + exists j, b. split; [exact Hj|]. split; [|reflexivity].
      destruct (decide (k = imgKey b j)) as [<-|Hk].
      * apply lookup_insert_eq.
      * rewrite lookup_insert_ne by exact Hk. exact Hsel.
    + exists i, src. split; [exact Hi|]. split; [apply lookup_insert_eq|reflexivity].
  - intros (j & b & Hj & Hsel & ->).
    destruct (decide (k = imgKey b j)) as [Hk|Hk].
    + rewrite <- Hk, lookup_insert_eq in Hsel. discriminate.
    + rewrite lookup_insert_ne in Hsel by exact Hk. split.
      * exists j, b. repeat split; assumption.
      * simpl. intros ->. apply Hk. subst k. congruence.
  - intros [(j & b & Hj & Hsel & ->) Hne]. simpl in Hne.
    exists j, b. split; [exact Hj|]. split; [|reflexivity].
    rewrite lookup_insert_ne; [exact Hsel|].
    intros Hk. apply imgKey_eq in Hk as [_ <-]. apply Hne. reflexivity.
Qed.

Lemma checkImage_selections_witness :
  let s := setImages [lit "a"; lit "a"] (setResumeUrl (lit "/w/1") initialSession) in
  let s' := checkImage (imgKey (lit "a") 1) true s in
  selection_at (selected s) (imgFeedback s) 1 (lit "a")
  ∈ selections (images s') (selected s') (imgFeedback s').
Proof.
  intros s s'.
  apply (proj1 (checkImage_selections s 1 (lit "a") _ eq_refl)). right. reflexivity.
Defined.

(** Editing the feedback of a listed image changes the feedback sent with
    that image, to the trimmed text, and nothing else. *)
Theorem editFeedback_selections (s : Session) (i j : nat) (src b text : jsstring) :
  images s !! i = Some src -> images s !! j = Some b ->
  let s' := editFeedback (imgKey src i) text s in
  images s' = images s /\ selected s' = selected s
  /\ selection_at (selected s') (imgFeedback s') j b
     = if decide (j = i) then {| image := src; feedback := trim text; index := i |}
       else selection_at (selected s) (imgFeedback s) j b.
Proof.
  intros Hi Hj s'. split; [reflexivity|]. split; [reflexivity|].
  unfold selection_at. subst s'. cbn.
  destruct (decide (j = i)) as [->|Hne].
  - rewrite Hi in Hj. injection Hj as <-. rewrite lookup_insert_eq. reflexivity.
  - rewrite lookup_insert_ne; [reflexivity|].
    intros Hk. apply imgKey_eq in Hk as [_ Hk]. congruence.
Qed.

Lemma editFeedback_selections_witness :
  let s := setImages [lit "a"; lit "b"] initialSession in
  let s' := editFeedback (imgKey (lit "a") 0) (lit " warmer ") s in
  selection_at (selected s') (imgFeedback s') 0 (lit "a")
  = {| image := lit "a"; feedback := lit "warmer"; index := 0 |}.
Proof.
  intros s s'.
  exact (proj2 (proj2 (editFeedback_selections s 0 0 (lit "a") (lit "a") (lit " warmer ")
                         eq_refl eq_refl))).
Defined.

(** The [selected:] badge counts every true entry of the selection map,
    so it is never below the number of selections sent; the two agree
    when every true entry belongs to a listed image. *)
Theorem selected_count_bound (imgs : list jsstring) (sel : gmap jsstring bool)
    (fb : gmap jsstring jsstring) :
  length (selections imgs sel fb) <= selected_count sel
  /\ ((forall k, sel !! k = Some true -> listed imgs k) ->
      length (selections imgs sel fb) = selected_count sel).
Proof.
  set (key := fun e : Selection => (imgKey (image e) (index e), true)).
  assert (Hnd : NoDup (key <$> selections imgs sel fb)).
  { apply NoDup_fmap_2_strong; [|apply selections_NoDup].
    intros x y Hx Hy Hxy.
    apply selections_elem in Hx as (i & a & _ & _ & ->).
    apply selections_elem in Hy as (j & b & _ & _ & ->).
    unfold key in Hxy. simpl in Hxy. injection Hxy as Hk.
    apply imgKey_eq in Hk as [-> ->]. reflexivity. }
  assert (Hin : forall x, x ∈ key <$> selections imgs sel fb ->
                          x ∈ filter (fun kv => kv.2 = true) (map_to_list sel)).
  { intros x Hx. apply list_elem_of_fmap in Hx as (e & -> & He).
    apply selections_elem in He as (i & a & _ & Hsel & ->).
    apply list_elem_of_filter. split; [reflexivity|].
    apply elem_of_map_to_list. exact Hsel. }
  unfold selected_count. split.
  - rewrite <- (length_fmap key). apply submseteq_length, NoDup_submseteq; assumption.
  - intros Hlisted. rewrite <- (length_fmap key). apply Permutation_length.
    apply NoDup_Permutation; [exact Hnd|apply NoDup_filter, NoDup_map_to_list|].
    intros [k b]. split; [apply Hin|].
    intros Hx. apply list_elem_of_filter in Hx as [Hb Hx]. simpl in Hb. subst b.
    apply elem_of_map_to_list in Hx.
    destruct (Hlisted k Hx) as (i & a & Hi & ->).
    apply list_elem_of_fmap. exists (selection_at sel fb i a). split; [reflexivity|].
    apply selections_elem. exists i, a. repeat split; assumption.
Qed.

Lemma selected_count_bound_witness :
  let sel : gmap jsstring bool := {[ imgKey (lit "a") 0 := true ]} in
  length (selections [lit "a"] sel ∅) = selected_count sel.
Proof.
  intros sel. apply (proj2 (selected_count_bound [lit "a"] sel ∅)).
  intros k Hk. apply lookup_singleton_Some in Hk as [<- _].
  exists 0, (lit "a"). split; reflexivity.
Defined.

(** ** The images effect, once more *)

Lemma init_missing_present {V} (d : V) (imgs : list jsstring) (i : nat)
    (next : gmap jsstring V) :
  (forall j src, imgs !! j = Some src -> is_Some (next !! imgKey src (i + j))) ->
  init_missing d i imgs next = next.
Proof.
  revert i. induction imgs as [|a r IH]; intros i Hall; simpl; [reflexivity|].
  destruct (Hall 0 a eq_refl) as [v Hv]. rewrite Nat.add_0_r in Hv. rewrite Hv.
  apply IH. intros j src Hj. replace (S i + j) with (i + S j) by lia.
  apply Hall. exact Hj.
Qed.

(** Running the effect a second time on the same image list changes
    nothing. *)
Theorem imagesEffect_idempotent (s : Session) :
  imagesEffect (imagesEffect s) = imagesEffect s.
Proof.
  unfold imagesEffect at 2. destruct (images s) as [|a r] eqn:E.
  - unfold imagesEffect. cbn. rewrite E. reflexivity.
  - unfold imagesEffect. cbn -[init_missing]. rewrite E.
    rewrite (init_missing_present false (a :: r) 0
               (init_missing false 0 (a :: r) (selected s)))
      by (intros j src Hj; apply (init_missing_covers _ (a :: r) 0 j _ src Hj)).
    rewrite (init_missing_present [] (a :: r) 0
               (init_missing [] 0 (a :: r) (imgFeedback s)))
      by (intros j src Hj; apply (init_missing_covers _ (a :: r) 0 j _ src Hj)).
    reflexivity.
Qed.

(** ** Guards of the handlers *)

Section Guards.
Context `{Platform}.

(** Without a continuation address no handler sends a request or changes
    a state cell. *)
Theorem handlers_need_address (snap st : Session) (os : list FetchOutcome) :
  resumeUrl snap = [] ->
  run (submitUploadStyle snap st) os = ([], st, true)
  /\ run (submitCompose snap st) os = ([], st, true)
  /\ run (fetchReview snap st) os = ([], st, true)
  /\ run (sendBackToN8n snap st) os = ([], st, true)
  /\ run (fetchResults snap st) os = ([], st, true)
  /\ run (sendSelectedImagesBack snap st) os = ([], st, true)
  /\ run (sendImagesForFinals snap st) os = ([], st, true).
Proof.
  intros Hurl.
  unfold submitUploadStyle, submitCompose, fetchReview, sendBackToN8n, fetchResults,
    sendSelectedImagesBack, sendImagesForFinals.
  rewrite Hurl. repeat split.
Qed.

Lemma selections_none (imgs : list jsstring) (sel : gmap jsstring bool)
    (fb : gmap jsstring jsstring) :
  (forall i src, imgs !! i = Some src -> sel !! imgKey src i ≠ Some true) <->
  selections imgs sel fb = [].
Proof.
  split.
  - intros Hnone. destruct (selections imgs sel fb) as [|e l] eqn:E; [reflexivity|].
    assert (He : e ∈ selections imgs sel fb) by (rewrite E; left).
    apply selections_elem in He as (i & src & Hi & Hsel & _).
    destruct (Hnone i src Hi Hsel).
  - intros Hnil i src Hi Hsel.
    assert (He : selection_at sel fb i src ∈ selections imgs sel fb).
    { apply selections_elem. exists i, src. repeat split; assumption. }
    rewrite Hnil in He. inversion He.
Qed.

(** With no image selected, the two submissions of the Results step send
    nothing: they only leave the hint to select an image. *)
Theorem submissions_need_selection (snap st : Session) (os : list FetchOutcome) :
  (forall i src, images snap !! i = Some src -> selected snap !! imgKey src i ≠ Some true) ->
  nonempty (resumeUrl snap) = true ->
  let hint := setMessage (VStr (lit "Select at least one image before sending.")) st in
  run (sendSelectedImagesBack snap st) os = ([], hint, true)
  /\ run (sendImagesForFinals snap st) os = ([], hint, true).
Proof.
  intros Hnone Hurl hint.
  apply (selections_none _ _ (imgFeedback snap)) in Hnone.
  unfold sendSelectedImagesBack, sendImagesForFinals. rewrite Hurl, Hnone.
  split; reflexivity.
Qed.

End Guards.

Lemma handlers_need_address_witness :
  run (@sendBackToN8n Reference.platform (resetAll initialSession) initialSession) []
  = ([], initialSession, true).
Proof.
  apply (@handlers_need_address Reference.platform (resetAll initialSession) initialSession []).
  reflexivity.
Defined.

Lemma submissions_need_selection_witness :
  let snap := setImages [lit "a"] (setResumeUrl (lit "/w/1") initialSession) in
  requests_of (run (@sendImagesForFinals Reference.platform snap snap) []) = [].
Proof.
  intros snap.
  rewrite (proj2 (@submissions_need_selection Reference.platform snap snap [] 
                    ltac:(intros i src _; cbn; rewrite lookup_empty; discriminate) eq_refl)).
  reflexivity.
Defined.

(** ** Failures of the transport *)

Ltac cases :=
  repeat match goal with
         | |- context [if ?b then _ else _] => destruct b eqn:?
         end.

Section Transport.
Context `{Platform}.

(** When the exchange fails, the handler stays on its step and keeps the
    stored address, the images and the deliverables; the Finals request,
    which has moved to the Finals step before sending, marks it failed.
    No further request follows. *)
Theorem transport_failure_keeps_state (snap st : Session) (o : FetchOutcome)
    (more : list FetchOutcome) :
  transport_failure o = true ->
  let kept (h : Session -> M unit) :=
    let out := run (h snap st) (o :: more) in
    length (requests_of out) <= 1 /\ out.2 = true
    /\ activeTab (state_of out) = activeTab st
    /\ resumeUrl (state_of out) = resumeUrl st
    /\ images (state_of out) = images st
    /\ deliverables (state_of out) = deliverables st in
  kept submitUploadStyle /\ kept submitCompose /\ kept fetchReview
  /\ kept sendBackToN8n /\ kept fetchResults /\ kept sendSelectedImagesBack
  /\ (nonempty (resumeUrl snap) = true ->
      selections (images snap) (selected snap) (imgFeedback snap) ≠ [] ->
      let out := run (sendImagesForFinals snap st) (o :: more) in
      requests_of out = [selections_request snap] /\ out.2 = true
      /\ activeTab (state_of out) = TabFinals /\ finalStatus (state_of out) = Error
      /\ resumeUrl (state_of out) = resumeUrl st /\ images (state_of out) = images st).
Proof.
  intros Hfail kept. subst kept. cbv beta zeta.
  assert (Hfinals :
    nonempty (resumeUrl snap) = true ->
    selections (images snap) (selected snap) (imgFeedback snap) ≠ [] ->
    let out := run (sendImagesForFinals snap st) (o :: more) in
    requests_of out = [selections_request snap] /\ out.2 = true
    /\ activeTab (state_of out) = TabFinals /\ finalStatus (state_of out) = Error
    /\ resumeUrl (state_of out) = resumeUrl st /\ images (state_of out) = images st).
  { intros Hurl Hsel. unfold sendImagesForFinals, selections_request. rewrite Hurl.
    destruct (selections _ _ _) as [|e l]; [congruence|].
    destruct o as [res|name msg]; simpl in Hfail; exec; rewrite ?Hfail; exec;
      repeat apply conj; reflexivity. }
  unfold submitUploadStyle, submitCompose, fetchReview, sendBackToN8n, fetchResults,
    sendSelectedImagesBack.
  destruct (nonempty (resumeUrl snap)); cbn [negb].
  2: { repeat apply conj; try reflexivity; try (cbn; lia); intros; discriminate. }
  repeat apply conj; try exact Hfinals.
  all: destruct o as [res|name msg]; simpl in Hfail.
  all: exec; cases; exec; rewrite ?Hfail; exec; rewrite ?run_finally; cases; exec;
    repeat apply conj; try reflexivity; try (cbn; lia).
Qed.

End Transport.

(** ** What the handlers leave behind *)

(** Follow a handler through every reply and every branch. *)
Ltac explore :=
  repeat first
    [ progress exec
    | match goal with
      | |- context [match ?x with _ => _ end] => is_var x; destruct x
      | |- context [if ?b then _ else _] => destruct b eqn:?
      | |- context [match normalizeDeliverables ?v with _ => _ end] =>
          destruct (normalizeDeliverables v)
      end ].


Section Aftermath.
Context `{Platform}.

(** A handler never empties the image list: after any replies the list is
    the one it found or a non-empty one. *)
Theorem images_never_cleared (snap st : Session) (os : list FetchOutcome) :
  let safe (h : Session -> M unit) :=
    images (state_of (run (h snap st) os)) = images st
    \/ images (state_of (run (h snap st) os)) ≠ [] in
  safe submitUploadStyle /\ safe submitCompose /\ safe fetchReview
  /\ safe sendBackToN8n /\ safe fetchResults /\ safe sendSelectedImagesBack
  /\ safe sendImagesForFinals.
Proof.
  intros safe. subst safe. cbv beta.
  unfold submitUploadStyle, submitCompose, fetchReview, sendBackToN8n, fetchResults,
    sendSelectedImagesBack, sendImagesForFinals, spawn.
  repeat apply conj.
  all: explore; unfold fetchReview, fetchResults, adopt; explore.
  all: first [ left; reflexivity
             | right; apply length_pos_nonnil; assumption ].
Qed.

End Aftermath.

Section Flags.
Context `{Platform}.

(** The busy flag a handler raises is down again when the handler has
    ended, whatever the replies were; the Compose flag is already down
    when the submission has been answered, also while the review fetch it
    started is still waiting. *)
Theorem busy_flags_cleared (snap st : Session) (os : list FetchOutcome) :
  nonempty (resumeUrl snap) = true ->
  (let out := run (submitUploadStyle snap st) os in
   out.2 = true -> isUploadingStyle (state_of out) = false)
  /\ (let out := run (fetchReview snap st) os in
      out.2 = true -> isSubmittingReview (state_of out) = false)
  /\ (let out := run (sendBackToN8n snap st) os in
      isSubmittingReview snap = false ->
      out.2 = true -> isSubmittingReview (state_of out) = false)
  /\ (let out := run (sendSelectedImagesBack snap st) os in
      selections (images snap) (selected snap) (imgFeedback snap) ≠ [] ->
      out.2 = true -> sendingImages (state_of out) = false)
  /\ (os ≠ [] -> isComposing (state_of (run (submitCompose snap st) os)) = false).
Proof.
  intros Hurl.
  unfold submitUploadStyle, fetchReview, sendBackToN8n, sendSelectedImagesBack.
  rewrite Hurl. cbn [negb]. repeat apply conj.
  - exec. destruct os as [|o os]; [discriminate|]. exec. rewrite run_finally.
    cbn. intros ->. reflexivity.
  - exec. destruct os as [|o os]; [discriminate|]. exec. rewrite run_finally.
    cbn. intros ->. reflexivity.
  - cbv zeta. intros ->. exec. destruct os as [|o os]; [discriminate|]. exec.
    rewrite run_finally. cbn. intros ->. reflexivity.
  - cbv zeta. intros Hsel. destruct (selections _ _ _); [congruence|].
    exec. destruct os as [|o os]; [discriminate|]. exec. rewrite run_finally.
    cbn. intros ->. reflexivity.
  - intros Hos. destruct os as [|o os]; [congruence|].
    unfold submitCompose, spawn. rewrite Hurl. cbn [negb].
    explore; unfold fetchReview; rewrite ?Hurl; explore; unfold adopt; explore; reflexivity.
Qed.

End Flags.

Lemma busy_flags_cleared_witness :
  let snap := setResumeUrl (lit "/w/1") initialSession in
  isComposing (state_of (run (@submitCompose Reference.platform snap snap)
                           [Responded {| status_code := 200; resp_body := quoted "{}" |}]))
  = false.
Proof.
  intros snap.
  apply (proj2 (proj2 (proj2 (proj2 (@busy_flags_cleared Reference.platform snap snap _ eq_refl))))).
  discriminate.
Defined.

Lemma transport_failure_keeps_state_witness :
  let snap := setResumeUrl (lit "/w/1") initialSession in
  activeTab (state_of (run (@fetchReview Reference.platform snap snap)
                         [Responded {| status_code := 502; resp_body := lit "Bad Gateway" |}]))
  = TabTrigger.
Proof.
  intros snap.
  destruct (@transport_failure_keeps_state Reference.platform snap snap
              (Responded {| status_code := 502; resp_body := lit "Bad Gateway" |}) [] eq_refl)
    as (_ & _ & (_ & _ & Htab & _) & _).
  exact Htab.
Defined.

(** ** Review fetch *)

Section ReviewFetch.
Context `{Platform}.


End ReviewFetch.


(** ** Polling *)

Section Polling.
Context `{Platform}.


(** How a failed poll is reported.  An aborted poll is silent: the step
    is left pending and no message is written.  Every other failure marks
    the step failed with the text of the error, or with the status code
    of a response outside the 2xx range. *)
Theorem fetchResults_failures (snap st : Session) (more : list FetchOutcome) :
  nonempty (resumeUrl snap) = true ->
  (forall msg,
     state_of (run (fetchResults snap st) (Failed (lit "AbortError") msg :: more))
     = setStatus Pending st)
  /\ (forall name msg, name ≠ lit "AbortError" ->
        state_of (run (fetchResults snap st) (Failed name msg :: more))
        = setMessage (VStr (or_default msg (lit "Polling failed")))
            (setStatus Error (setStatus Pending st)))
  /\ (forall res, resp_ok res = false ->
        state_of (run (fetchResults snap st) (Responded res :: more))
        = setMessage (VStr (lit "Polling error: " ++ dec (status_code res)))
            (setStatus Error (setStatus Pending st))).
Proof.
  intros Hurl. unfold fetchResults. rewrite Hurl. repeat apply conj.
  - intros msg. reflexivity.
  - intros name msg Hname. exec. rewrite bool_decide_eq_false_2 by exact Hname.
    reflexivity.
  - intros res Hbad. exec. rewrite Hbad. exec.
    unfold or_default, nonempty. reflexivity.
Qed.

End Polling.


Lemma fetchResults_failures_witness :
  let snap := setResumeUrl (lit "/w/1") initialSession in
  state_of (run (@fetchResults Reference.platform snap snap)
              [Failed (lit "AbortError") (lit "The user aborted a request.")])
  = setStatus Pending snap.
Proof.
  intros snap.
  apply (proj1 (@fetchResults_failures Reference.platform snap snap [] eq_refl)).
Defined.

(** ** Finals *)

Section FinalsMore.
Context `{Platform}.


End FinalsMore.


(** ** The address of the follow-up request *)

Section Followup.
Context `{Platform}.


End Followup.


(** ** Recovery of an embedded JSON text *)

Lemma indexOf_app_notin (c : N) (pre s : jsstring) :
  c ∉ pre -> indexOf c (pre ++ s) = (fun k => length pre + k) <$> indexOf c s.
Proof.
  induction pre as [|a pre IH]; intros Hc; simpl.
  - destruct (indexOf c s); reflexivity.
  - destruct (N.eqb_spec a c) as [->|_]; [exfalso; apply Hc; left|].
    rewrite IH by (intros Hin; apply Hc; right; exact Hin).
    destruct (indexOf c s); reflexivity.
Qed.

Lemma indexOf_ge (c : N) (pre s : jsstring) (q : nat) :
  c ∉ pre -> indexOf c (pre ++ s) = Some q -> length pre <= q.
Proof.
  intros Hc. rewrite indexOf_app_notin by exact Hc.
  destruct (indexOf c s); simpl; intros [= <-]. lia.
Qed.

Lemma indexOf_here (c : N) (pre s : jsstring) :
  c ∉ pre -> indexOf c (pre ++ c :: s) = Some (length pre).
Proof.
  intros Hc. rewrite indexOf_app_notin by exact Hc. simpl.
  rewrite N.eqb_refl. simpl. f_equal. lia.
Qed.

Lemma lastIndexOf_le (c : N) (s post : jsstring) (q : nat) :
  c ∉ post -> lastIndexOf c (s ++ post) = Some q -> q + length post < length (s ++ post).
Proof.
  intros Hc. unfold lastIndexOf. rewrite rev_app_distr.
  destruct (indexOf c (rev post ++ rev s)) as [i|] eqn:E; [|discriminate].
  simpl. intros [= <-].
  assert (Hi : length (rev post) <= i).
  { apply (indexOf_ge c (rev post) (rev s)); [rewrite elem_of_rev; exact Hc|exact E]. }
  assert (Hlt : i < length (rev post ++ rev s)).
  { clear Hi. revert i E. generalize (rev post ++ rev s). intros l.
    induction l as [|a l IH]; intros i E; simpl in *; [discriminate|].
    destruct (a =? c)%N; [injection E as <-; lia|].
    destruct (indexOf c l) as [k|]; [|discriminate].
    simpl in E. injection E as <-. specialize (IH k eq_refl). lia. }
  rewrite length_app, !length_rev in Hlt. rewrite length_rev in Hi.
  rewrite length_app. lia.
Qed.

Lemma lastIndexOf_here (c : N) (s post : jsstring) :
  c ∉ post -> lastIndexOf c ((s ++ [c]) ++ post) = Some (length s).
Proof.
  intros Hc. unfold lastIndexOf. rewrite !rev_app_distr. simpl.
  rewrite (indexOf_here c (rev post) (rev s)) by (rewrite elem_of_rev; exact Hc).
  simpl. f_equal. rewrite !length_app, length_rev. simpl. lia.
Qed.

Section Recovery.
Context `{Platform}.

(** The recovery finds a JSON text inside prose: when an array or object
    text stands between a prefix without opening bracket or brace and a
    suffix without closing bracket or brace, the embedded part is exactly
    that text; and when the whole body does not parse but that text does,
    the Finals response is read as its value. *)
Theorem embedded_json_found (pre mid post : jsstring) (c d : N) :
  91%N ∉ pre -> 123%N ∉ pre -> 93%N ∉ post -> 125%N ∉ post ->
  c = 91%N \/ c = 123%N -> d = 93%N \/ d = 125%N ->
  let text := c :: mid ++ [d] in
  let raw := pre ++ text ++ post in
  embedded_json raw = Some text
  /\ (forall v, JSON_parse raw = None -> JSON_parse text = Some v -> parse_finals raw = v).
Proof.
  intros Hp1 Hp2 Hq1 Hq2 Hc Hd text raw.
  assert (Hemb : embedded_json raw = Some text).
  { unfold embedded_json.
    assert (Hraw : raw = ((pre ++ c :: mid) ++ [d]) ++ post).
    { subst raw text. simpl. rewrite <- !app_assoc. reflexivity. }
    assert (Ha : forall q, indexOf 91 raw = Some q -> length pre <= q)
      by (intros q; apply indexOf_ge; exact Hp1).
    assert (Hb : forall q, indexOf 123 raw = Some q -> length pre <= q)
      by (intros q; apply indexOf_ge; exact Hp2).
    assert (Hs : indexOf 91 raw = Some (length pre) \/ indexOf 123 raw = Some (length pre)).
    { destruct Hc as [-> | ->]; [left|right]; apply indexOf_here; assumption. }
    assert (Hx : forall q, lastIndexOf 93 raw = Some q -> q <= length (pre ++ c :: mid)).
    { intros q Hq. rewrite Hraw in Hq. apply lastIndexOf_le in Hq; [|exact Hq1].
      rewrite !length_app in Hq. simpl in Hq. rewrite length_app. simpl. lia. }
    assert (Hy : forall q, lastIndexOf 125 raw = Some q -> q <= length (pre ++ c :: mid)).
    { intros q Hq. rewrite Hraw in Hq. apply lastIndexOf_le in Hq; [|exact Hq2].
      rewrite !length_app in Hq. simpl in Hq. rewrite length_app. simpl. lia. }
    assert (He : lastIndexOf 93 raw = Some (length (pre ++ c :: mid))
                 \/ lastIndexOf 125 raw = Some (length (pre ++ c :: mid))).
    { rewrite Hraw. destruct Hd as [-> | ->]; [left|right];
        apply lastIndexOf_here; assumption. }
    assert (Hslice : slice (length pre) (length (pre ++ c :: mid) + 1) raw = text).
    { unfold slice. rewrite Hraw.
      replace (length (pre ++ c :: mid) + 1) with (length ((pre ++ c :: mid) ++ [d]))
        by (rewrite !length_app; simpl; lia).
      rewrite take_app_length. rewrite <- !app_assoc. rewrite drop_app_length.
      reflexivity. }
    assert (Hlen : length (pre ++ c :: mid) = length pre + S (length mid))
      by (rewrite length_app; reflexivity).
    destruct (indexOf 91 raw) as [a|] eqn:Ea; destruct (indexOf 123 raw) as [b|] eqn:Eb;
      destruct (lastIndexOf 93 raw) as [x|] eqn:Ex;
      destruct (lastIndexOf 125 raw) as [y|] eqn:Ey;
      try (destruct Hs; discriminate); try (destruct He; discriminate);
      repeat match goal with
             | Hall : forall q, Some ?z = Some q -> _ |- _ => specialize (Hall z eq_refl)
             end.
    all: match goal with
         | |- (if ?s <? ?e then _ else _) = _ =>
             replace s with (length pre) by (destruct Hs as [[= ->]|[= ->]]; lia);
             replace e with (length (pre ++ c :: mid))
               by (destruct He as [[= ->]|[= ->]]; lia)
         end.
    all: rewrite Hslice; destruct (Nat.ltb_spec (length pre) (length (pre ++ c :: mid)));
      [reflexivity|lia]. }
  split; [exact Hemb|].
  intros v Hraw Htext. unfold parse_finals. rewrite Hraw, Hemb, Htext. reflexivity.
Qed.

End Recovery.

Lemma embedded_json_found_witness :
  @embedded_json (lit "log: " ++ (91%N :: lit "1, 2" ++ [93%N]) ++ lit " end")
  = Some (91%N :: lit "1, 2" ++ [93%N]).
Proof.
  refine (proj1 (@embedded_json_found Reference.platform (lit "log: ") (lit "1, 2") (lit " end")
                   91%N 93%N _ _ _ _ (or_introl eq_refl) (or_introl eq_refl)));
    vm_compute; intros Hin;
    repeat (apply elem_of_cons in Hin as [Hin|Hin]; [discriminate|]); inversion Hin.
Defined.

(** ** Deliverables *)




(** Editing a member of a listed deliverable: the list keeps its length,
    the edited record has the new value under the key and its other
    members as before, and the other records are untouched.  An index
    beyond the end of the list is outside what a list can hold. *)
Theorem updateDeliverable_edit (idx : nat) (key value : jsstring)
    (prev : list (gmap jsstring jsstring)) :
  (forall d, prev !! idx = Some d ->
     exists next,
       updateDeliverable idx key value prev = Some next
       /\ length next = length prev
       /\ next !! idx = Some (<[key := value]> d)
       /\ (forall j, j ≠ idx -> next !! j = prev !! j)
       /\ (forall k, k ≠ key -> (<[key := value]> d) !! k = d !! k)
       /\ (<[key := value]> d) !! key = Some value)
  /\ (idx = length prev ->
      updateDeliverable idx key value prev = Some (prev ++ [{[ key := value ]}]))
  /\ (length prev < idx -> updateDeliverable idx key value prev = None).
Proof.
  unfold updateDeliverable. repeat apply conj.
  - intros d Hd. pose proof (lookup_lt_Some _ _ _ Hd) as Hlt.
    destruct (Nat.ltb_spec idx (length prev)); [|lia].
    eexists. split; [reflexivity|]. repeat apply conj.
    + apply length_alter.
    + rewrite list_lookup_alter_eq, Hd. reflexivity.
    + intros j Hj. apply list_lookup_alter_ne. congruence.
    + intros k Hk. apply lookup_insert_ne. congruence.
    + apply lookup_insert_eq.
  - intros ->. rewrite Nat.ltb_irrefl, Nat.eqb_refl. reflexivity.
  - intros Hgt. destruct (Nat.ltb_spec idx (length prev)); [lia|].
    destruct (Nat.eqb_spec idx (length prev)); [lia|reflexivity].
Qed.

Lemma updateDeliverable_edit_witness :
  exists next,
    updateDeliverable 0 (lit "Scene") (lit "dusk") [{[ lit "Scene" := lit "dawn" ]}] = Some next
    /\ length next = 1.
Proof.
  destruct (proj1 (updateDeliverable_edit 0 (lit "Scene") (lit "dusk")
                     [{[ lit "Scene" := lit "dawn" ]}]) _ eq_refl)
    as (next & Hnext & Hlen & _).
  exists next. split; [exact Hnext|exact Hlen].
Defined.

Lemma find_elem {A} (p : A -> bool) (l : list A) (x : A) :
  find p l = Some x -> x ∈ l /\ p x = true.
Proof.
  intros Hf. apply find_some in Hf as [Hin Hp]. split; [|exact Hp].
  apply list_elem_of_In. exact Hin.
Qed.

(** The scene description shown for a deliverable is the value of one of
    its members or the empty text.  A non-empty member named exactly
    [Scene Description] is the one shown; and when no name mentions both
    words, what is shown is the member [Description]. *)
Theorem getSceneDescription_source (d : list (jsstring * jsstring)) :
  (getSceneDescription d = [] \/ exists k, (k, getSceneDescription d) ∈ d)
  /\ (forall v, find (fun kv => bool_decide (kv.1 = lit "Scene Description")) d
               = Some (lit "Scene Description", v) ->
      v ≠ [] -> getSceneDescription d = v)
  /\ ((forall kv, kv ∈ d ->
         includes_ci kv.1 (lit "scene") && includes_ci kv.1 (lit "description") = false) ->
      getSceneDescription d
      = default [] (snd <$> find (fun kv => bool_decide (kv.1 = lit "Description")) d)).
Proof.
  unfold getSceneDescription. repeat apply conj.
  - pose proof (find_elem (fun kv => bool_decide (kv.1 = lit "Scene Description")) d) as H1.
    pose proof (find_elem (fun kv => includes_ci kv.1 (lit "scene")
                                     && includes_ci kv.1 (lit "description")) d) as H2.
    pose proof (find_elem (fun kv => bool_decide (kv.1 = lit "Description")) d) as H3.
    destruct (find (fun kv => bool_decide (kv.1 = lit "Scene Description")) d) as [[k1 v1]|];
      destruct (find (fun kv => includes_ci kv.1 (lit "scene")
                                && includes_ci kv.1 (lit "description")) d) as [[k2 v2]|];
      destruct (find (fun kv => bool_decide (kv.1 = lit "Description")) d) as [[k3 v3]|];
      cbn [fmap option_fmap option_map default from_option snd id]; unfold nonempty;
      repeat match goal with
             | |- context [bool_decide (?x = [])] => destruct (bool_decide (x = [])) eqn:?
             end;
      cbn [negb snd];
      first [ left; reflexivity
            | right; exists k1; exact (proj1 (H1 _ eq_refl))
            | right; exists k2; exact (proj1 (H2 _ eq_refl))
            | right; exists k3; exact (proj1 (H3 _ eq_refl)) ].
  - intros v Hfind Hv. rewrite Hfind. simpl. unfold nonempty.
    rewrite bool_decide_eq_false_2 by exact Hv. reflexivity.
  - intros Hnone.
    assert (Hfind : find (fun kv => includes_ci kv.1 (lit "scene")
                                    && includes_ci kv.1 (lit "description")) d = None).
    { destruct (find _ d) as [kv|] eqn:E; [|reflexivity].
      apply find_elem in E as [Hin Hp]. rewrite (Hnone kv Hin) in Hp. discriminate. }
    rewrite Hfind.
    destruct (find (fun kv => bool_decide (kv.1 = lit "Scene Description")) d)
      as [[k v]|] eqn:E1; simpl.
    + apply find_elem in E1 as [Hin Hk]. apply bool_decide_eq_true in Hk. simpl in Hk.
      specialize (Hnone (k, v) Hin). simpl in Hnone. subst k.
      vm_compute in Hnone. discriminate.
    + destruct (nonempty _) eqn:Hn; [reflexivity|].
      unfold nonempty in Hn. apply negb_false_iff, bool_decide_eq_true in Hn.
      symmetry. exact Hn.
Qed.

Lemma getSceneDescription_source_witness :
  getSceneDescription [(lit "Title", lit "t"); (lit "Scene Description", lit "a beach")]
  = lit "a beach".
Proof.
  apply (proj1 (proj2 (getSceneDescription_source
                         [(lit "Title", lit "t"); (lit "Scene Description", lit "a beach")]))).
  - reflexivity.
  - discriminate.
Defined.

(** ** Requests and late replies *)

Section Requests.
Context `{Platform}.

(** Every request a handler sends goes to the resolved form of the
    address of its render, and so to a path under the local prefix. *)
Theorem requests_resolved (snap st : Session) (os : list FetchOutcome) (rq : Request) :
  let sent (h : Session -> M unit) := rq ∈ requests_of (run (h snap st) os) in
  sent submitUploadStyle \/ sent submitCompose \/ sent fetchReview \/ sent sendBackToN8n
  \/ sent fetchResults \/ sent sendSelectedImagesBack \/ sent sendImagesForFinals ->
  url rq = toProxied (resumeUrl snap) /\ startsWith (url rq) (lit "/api") = true.
Proof.
  intros sent Hsent.
  assert (Hurl : url rq = toProxied (resumeUrl snap)).
  { subst sent. cbv beta in Hsent.
    assert (Hall : forall h : Session -> M unit,
               Forall (fun r => url r = toProxied (resumeUrl snap))
                 (requests_of (run (h snap st) os)) ->
               rq ∈ requests_of (run (h snap st) os) -> url rq = toProxied (resumeUrl snap)).
    { intros h Hf Hin. rewrite Forall_forall in Hf. exact (Hf rq Hin). }
    destruct Hsent as [Hs|[Hs|[Hs|[Hs|[Hs|[Hs|Hs]]]]]]; revert Hs; apply Hall; clear Hall.
    all: unfold submitUploadStyle, submitCompose, fetchReview, sendBackToN8n, fetchResults,
           sendSelectedImagesBack, sendImagesForFinals, spawn.
    all: explore; unfold fetchReview, fetchResults; explore.
    all: repeat constructor. }
  split; [exact Hurl|]. rewrite Hurl. apply toProxied_has_prefix.
Qed.


End Requests.

Lemma requests_resolved_witness :
  let snap := setResumeUrl (lit "https://n8n.example/webhook-wait/1") initialSession in
  startsWith (lit "/api/webhook-wait/1") (lit "/api") = true.
Proof.
  intros snap.
  apply (proj2 (@requests_resolved Reference.platform snap snap []
                  {| url := lit "/api/webhook-wait/1"; method := GET; body := NoBody |}
                  ltac:(do 4 right; left; vm_compute; left))).
Defined.

